(** * Group helpers of the Azure AD provider (azuread/helpers/graph/group.go)

  A shallow embedding of the helpers that manage membership and ownership
  of Azure AD groups, and the properties of their retry, listing and lookup
  logic.

  Go pointers that may be nil ([*string], [*[]ADGroup], [*ADGroup]) are
  [option]s, and dereferencing [None] is a run-time panic, which the
  embedding keeps as an outcome of its own.  The remote directory is an
  abstract world [W] that every client call may change; the calls a helper
  issues and the pauses it makes are recorded in a trace. *)

From Stdlib Require Import String Ascii List ZArith Lia Bool Arith.
Import ListNotations.
Open Scope string_scope.

(** ** Errors

  [fmt.Errorf] is kept structurally: the format literal and its operands.
  An operand that is an error is the error the new one wraps. *)

Inductive error : Type :=
| RemoteError (msg : string)
| Errorf (format : string) (args : list fmtArg)
with fmtArg : Type :=
| ArgStr (s : string)
| ArgInt (n : Z)
| ArgErr (e : error).

(** A Go result pair [(v, err)] of which exactly one side is meaningful. *)
Inductive result (A : Type) : Type :=
| Ok (a : A)
| Err (e : error).
Arguments Ok {A} a.
Arguments Err {A} e.

(** ** The graphrbac data the helpers touch *)

Module ADGroup.
Record t : Type := { ObjectID : option string; DisplayName : option string }.
End ADGroup.

Module User.
Record t : Type := { ObjectID : option string }.
End User.

Module ServicePrincipal.
Record t : Type := { ObjectID : option string }.
End ServicePrincipal.

(** [BasicDirectoryObject] is an interface; the helpers use its three
  projections only (the boolean each returns beside the pointer is
  discarded by the code). *)
Record BasicDirectoryObject : Type := {
  AsUser : option User.t;
  AsADGroup : option ADGroup.t;
  AsServicePrincipal : option ServicePrincipal.t
}.

(** [DirectoryObjectListResultIterator]: either exhausted ([NotDone] is
  false), or positioned on a value ([Value]) from which [NextWithContext]
  advances, or positioned on a value from which [NextWithContext] fails.
  What the pages to come hold is settled when the listing call returns the
  iterator. *)
Inductive DirectoryObjectListResultIterator : Type :=
| IterDone
| IterItem (v : BasicDirectoryObject) (next : DirectoryObjectListResultIterator)
| IterFail (v : BasicDirectoryObject) (err : error).

Record GroupListResult : Type := { Value : option (list ADGroup.t) }.

(** [GroupListResultIterator.Response()] is the page the iterator holds. *)
Record GroupListResultIterator : Type := { Response : GroupListResult }.

(** [GroupListResultPage.Values()] is the slice of the page, empty when the
  page holds none. *)
Record GroupListResultPage : Type := { Values : list ADGroup.t }.

Record GroupAddMemberParameters : Type := { URL : option string }.
Record AddOwnerParameters : Type := { OwnerURL : option string }.

(** [graphrbac.GroupsClient]: the tenant and the remote calls, each a
  transition of the remote world. *)
Module GroupsClient.
Record t (W : Type) : Type := {
  TenantID : string;
  AddMember : string -> GroupAddMemberParameters -> W -> option error * W;
  AddOwner : string -> AddOwnerParameters -> W -> option error * W;
  GetGroupMembersComplete :
    string -> W -> result DirectoryObjectListResultIterator * W;
  ListOwnersComplete :
    string -> W -> result DirectoryObjectListResultIterator * W;
  List : string -> W -> result GroupListResultPage * W;
  ListComplete : string -> W -> result GroupListResultIterator * W
}.
Arguments TenantID {W} _.
Arguments AddMember {W} _ _ _ _.
Arguments AddOwner {W} _ _ _ _.
Arguments GetGroupMembersComplete {W} _ _ _.
Arguments ListOwnersComplete {W} _ _ _.
Arguments List {W} _ _ _.
Arguments ListComplete {W} _ _ _.
End GroupsClient.

(** [time.Duration] counts nanoseconds. *)
Definition time_Second : Z := 1000000000.

(** ** Observable events *)

Inductive Event : Type :=
| EvAddMember (groupId : string) (properties : GroupAddMemberParameters)
              (res : option error)
| EvAddOwner (groupId : string) (properties : AddOwnerParameters)
             (res : option error)
| EvGetGroupMembersComplete (groupId : string)
| EvListOwnersComplete (groupId : string)
| EvList (filter : string)
| EvListComplete (filter : string)
| EvSleep (d : Z).

Definition is_AddMember (ev : Event) : bool :=
  match ev with EvAddMember _ _ _ => true | _ => false end.

Definition is_Sleep (ev : Event) : bool :=
  match ev with EvSleep _ => true | _ => false end.

(** ** Program states and outcomes

    A state holds the remote world, the trace of the calls issued and the
    pauses made so far, and the lines logged.  A computation either returns
    a value in a new state or panics. *)

Record State (W : Type) : Type := {
  world : W;
  trace : list Event;
  logs : list (string * list fmtArg)
}.
Arguments world {W} s.
Arguments trace {W} s.
Arguments logs {W} s.

Inductive Outcome (W A : Type) : Type :=
| Done (a : A) (s : State W)
| Panic (s : State W).
Arguments Done {W A} a s.
Arguments Panic {W A} s.

(** The state a computation ends in, whichever way it ends. *)
Definition final_state {W A} (o : Outcome W A) : State W :=
  match o with
  | Done _ s => s
  | Panic s => s
  end.

(** ** The composite identifier of a group member *)

(** Modelled from the spec: the struct [ObjectSubResourceId] is declared in
    another file of the package; the helpers read its fields [objectId] and
    [subId], and the specification gives it a kind. *)
Module ObjectSubResourceId.
Record t : Type := { objectId : string; subId : string; kind : string }.
End ObjectSubResourceId.

Record GroupMemberId : Type := {
  ObjectSubResourceId : ObjectSubResourceId.t;
  GroupId : string;
  MemberId : string
}.

(** [strings.Split] for a separator of one character. *)
Fixpoint split_on (sep : ascii) (s : string) : list string :=
  match s with
  | EmptyString => [EmptyString]
  | String c rest =>
      if Ascii.eqb c sep
      then EmptyString :: split_on sep rest
      else match split_on sep rest with
           | part :: parts => String c part :: parts
           | [] => [String c EmptyString]
           end
  end.

Fixpoint occurs (c : ascii) (s : string) : bool :=
  match s with
  | EmptyString => false
  | String c' rest => Ascii.eqb c' c || occurs c rest
  end.

Section Codec.

(** The character that separates the three parts of the string form. *)
Variable sep : ascii.

(** Modelled from the spec: [ObjectSubResourceIdFrom] is defined in another
    file of the package.  It builds the identifier from the object id, the
    kind and the sub id (sections 3 and 4.1 of the specification). *)
Definition ObjectSubResourceIdFrom (objectId typeId subId : string)
  : ObjectSubResourceId.t :=
  {| ObjectSubResourceId.objectId := objectId;
     ObjectSubResourceId.subId := subId;
     ObjectSubResourceId.kind := typeId |}.

(** Modelled from the spec: the [String] method is defined in another file
    of the package.  Sections 4.1 and 6 of the specification: the string
    form is a three-part encoding that embeds the object id, the kind and
    the sub id positionally. *)
Definition ObjectSubResourceId_String (id : ObjectSubResourceId.t) : string :=
  ObjectSubResourceId.objectId id ++ String sep
    (ObjectSubResourceId.kind id ++ String sep (ObjectSubResourceId.subId id)).

(** Modelled from the spec: [ParseObjectSubResourceId] is defined in another
    file of the package.  Sections 3 and 4.1 of the specification: decoding
    parses the composite string, validates the kind against the expected
    one, requires both ids to be non-empty and rejects malformed input with
    an error that carries the original string. *)
Definition ParseObjectSubResourceId (idString expectedType : string)
  : result ObjectSubResourceId.t :=
  match split_on sep idString with
  | [objectId; typeId; subId] =>
      if negb (String.eqb typeId expectedType)
      then Err (Errorf "expected kind %q in composite id %q"
                       [ArgStr expectedType; ArgStr idString])
      else if String.eqb objectId "" || String.eqb subId ""
      then Err (Errorf "empty identifier in composite id %q"
                       [ArgStr idString])
      else Ok (ObjectSubResourceIdFrom objectId typeId subId)
  | _ => Err (Errorf "composite id %q does not have three parts"
                     [ArgStr idString])
  end.

(** Modelled from the spec: a valid identifier (section 3 of the
    specification asks for non-empty, well-formed component ids) is one the
    string form can carry: non-empty and free of the separator. *)
Definition valid_identifier (s : string) : Prop :=
  s <> "" /\ occurs sep s = false.

Definition GroupMemberIdFrom (groupId memberId : string) : GroupMemberId :=
  {| ObjectSubResourceId := ObjectSubResourceIdFrom groupId "member" memberId;
     GroupId := groupId;
     MemberId := memberId |}.

(** The [String] method that [GroupMemberId] inherits from the struct it
    embeds. *)
Definition GroupMemberId_String (id : GroupMemberId) : string :=
  ObjectSubResourceId_String (ObjectSubResourceId id).

Definition ParseGroupMemberId (idString : string) : result GroupMemberId :=
  match ParseObjectSubResourceId idString "member" with
  | Err err => Err (Errorf "unable to parse Member ID: %v" [ArgErr err])
  | Ok id =>
      Ok {| ObjectSubResourceId := id;
            GroupId := ObjectSubResourceId.objectId id;
            MemberId := ObjectSubResourceId.subId id |}
  end.

End Codec.

(** ** Concrete directories, for running the helpers *)

Definition userObject (id : option string) : BasicDirectoryObject :=
  {| AsUser := Some {| User.ObjectID := id |};
     AsADGroup := None; AsServicePrincipal := None |}.

Definition groupObject (id : option string) : BasicDirectoryObject :=
  {| AsUser := None;
     AsADGroup := Some {| ADGroup.ObjectID := id; ADGroup.DisplayName := None |};
     AsServicePrincipal := None |}.

Definition servicePrincipalObject (id : option string) : BasicDirectoryObject :=
  {| AsUser := None; AsADGroup := None;
     AsServicePrincipal := Some {| ServicePrincipal.ObjectID := id |} |}.

(** An object of a kind the three projections do not know, an application
    for instance. *)
Definition otherObject : BasicDirectoryObject :=
  {| AsUser := None; AsADGroup := None; AsServicePrincipal := None |}.

(** The iterator over a sequence whose pagination never fails. *)
Fixpoint iteratorOf (objects : list BasicDirectoryObject)
  : DirectoryObjectListResultIterator :=
  match objects with
  | [] => IterDone
  | v :: objects' => IterItem v (iteratorOf objects')
  end.

(** The error with which a scripted directory refuses its call number
    [n]. *)
Definition refusal (n : nat) : error :=
  Errorf "add refused on call %d" [ArgInt (Z.of_nat n)].

(** A directory whose state is the number of [AddMember] calls it has
    received: call number [n] (from 0) fails exactly when [failing n]; every
    listing of members or owners yields [listed], every listing of groups
    yields [groups]. *)
Definition scriptedClient (failing : nat -> bool)
           (listed : list BasicDirectoryObject) (groups : list ADGroup.t)
  : GroupsClient.t nat :=
  {| GroupsClient.TenantID := "tenant";
     GroupsClient.AddMember := fun _ _ n =>
       (if failing n
        then Some (refusal n)
        else None, S n);
     GroupsClient.AddOwner := fun _ _ n => (None, n);
     GroupsClient.GetGroupMembersComplete := fun _ n => (Ok (iteratorOf listed), n);
     GroupsClient.ListOwnersComplete := fun _ n => (Ok (iteratorOf listed), n);
     GroupsClient.List := fun _ n => (Ok {| Values := groups |}, n);
     GroupsClient.ListComplete := fun _ n =>
       (Ok {| Response := {| Value := Some groups |} |}, n) |}.

Definition initial (w : nat) : State nat :=
  {| world := w; trace := []; logs := [] |}.

Definition group (id name : option string) : ADGroup.t :=
  {| ADGroup.ObjectID := id; ADGroup.DisplayName := name |}.

(** A pause does not change a scripted directory. *)
Definition still (d : Z) (w : nat) : nat := w.

(** A directory that refuses every add. *)
Definition refusingClient : GroupsClient.t nat :=
  scriptedClient (fun _ => true) [] [].

(** A directory that refuses the first three adds and lists the user [m]. *)
Definition flakyClient : GroupsClient.t nat :=
  scriptedClient (fun n => Nat.ltb n 3) [userObject (Some "m")] [].

(** A directory that accepts the first add only and lists the user [a]. *)
Definition onceClient : GroupsClient.t nat :=
  scriptedClient (fun n => Nat.ltb 0 n) [userObject (Some "a")] [].

(** A directory whose listing of groups is the given one. *)
Definition groupsClient (groups : list ADGroup.t) : GroupsClient.t nat :=
  scriptedClient (fun _ => false) [] groups.

(** A directory whose state is the number of [AddOwner] calls it has
    received: call number [n] (from 0) fails exactly when [failing n]. *)
Definition ownersClient (failing : nat -> bool) : GroupsClient.t nat :=
  {| GroupsClient.TenantID := "tenant";
     GroupsClient.AddMember := fun _ _ n => (None, n);
     GroupsClient.AddOwner := fun _ _ n =>
       (if failing n then Some (refusal n) else None, S n);
     GroupsClient.GetGroupMembersComplete := fun _ n => (Ok IterDone, n);
     GroupsClient.ListOwnersComplete := fun _ n => (Ok IterDone, n);
     GroupsClient.List := fun _ n => (Ok {| Values := [] |}, n);
     GroupsClient.ListComplete := fun _ n =>
       (Ok {| Response := {| Value := None |} |}, n) |}.

(** A directory whose listings of members, of owners and of groups all
    fail. *)
Definition unreachableClient : GroupsClient.t nat :=
  {| GroupsClient.TenantID := "tenant";
     GroupsClient.AddMember := fun _ _ n => (None, n);
     GroupsClient.AddOwner := fun _ _ n => (None, n);
     GroupsClient.GetGroupMembersComplete := fun _ n =>
       (Err (RemoteError "unreachable"), n);
     GroupsClient.ListOwnersComplete := fun _ n =>
       (Err (RemoteError "unreachable"), n);
     GroupsClient.List := fun _ n => (Err (RemoteError "unreachable"), n);
     GroupsClient.ListComplete := fun _ n =>
       (Err (RemoteError "unreachable"), n) |}.

(** The iterator over a sequence whose pagination fails when it is asked
    to advance from the object [v], reached after [objects]. *)
Fixpoint iteratorFailing (objects : list BasicDirectoryObject)
         (v : BasicDirectoryObject) (err : error)
  : DirectoryObjectListResultIterator :=
  match objects with
  | [] => IterFail v err
  | o :: objects' => IterItem o (iteratorFailing objects' v err)
  end.

(** ** Vocabulary for listings *)

(** The value a computation returns, when it returns. *)
Definition returned {W A} (o : Outcome W A) : option A :=
  match o with
  | Done a _ => Some a
  | Panic _ => None
  end.

(** The object is recognized by at least one of the three projections. *)
Definition recognized (v : BasicDirectoryObject) : bool :=
  match AsUser v, AsADGroup v, AsServicePrincipal v with
  | None, None, None => false
  | _, _, _ => true
  end.

(** The object is recognized by one projection at most. *)
Definition one_variant_at_most (v : BasicDirectoryObject) : Prop :=
  match AsUser v, AsADGroup v, AsServicePrincipal v with
  | Some _, None, None | None, Some _, None
  | None, None, Some _ | None, None, None => True
  | _, _, _ => False
  end.

(** The identifier of the variant the object is recognized as. *)
Definition identifier (v : BasicDirectoryObject) : option string :=
  match AsUser v, AsADGroup v, AsServicePrincipal v with
  | Some user, _, _ => User.ObjectID user
  | None, Some group, _ => ADGroup.ObjectID group
  | None, None, Some servicePrincipal =>
      ServicePrincipal.ObjectID servicePrincipal
  | None, None, None => None
  end.

(** The identifiers of a sequence of objects, in the order of the
    sequence. *)
Definition identifiers (objects : list BasicDirectoryObject) : list string :=
  flat_map (fun v => match identifier v with
                     | Some id => [id]
                     | None => []
                     end) objects.

(** The [ObjectID] fields the loop of [DirectoryObjectListToIDs]
    dereferences on an object, in the order of its three tests: one for
    each projection that recognizes the object. *)
Definition projected (v : BasicDirectoryObject) : list (option string) :=
  (match AsUser v with
   | Some user => [User.ObjectID user]
   | None => []
   end
   ++ match AsADGroup v with
      | Some group => [ADGroup.ObjectID group]
      | None => []
      end
   ++ match AsServicePrincipal v with
      | Some servicePrincipal => [ServicePrincipal.ObjectID servicePrincipal]
      | None => []
      end)%list.

(** The group carries a display name, and it is not the given one. *)
Definition differently_named (name : string) (group : ADGroup.t) : Prop :=
  exists displayName,
    ADGroup.DisplayName group = Some displayName /\ displayName <> name.

(** The group bears exactly the given display name. *)
Definition named (name : string) (group : ADGroup.t) : bool :=
  match ADGroup.DisplayName group with
  | Some displayName => String.eqb displayName name
  | None => false
  end.

(** * The helpers *)

Section Graph.

Variable W : Type.

(** The client the helpers are given. *)
Variable client : GroupsClient.t W.

(** What a pause of the given duration does to the remote world (an
    eventually consistent directory changes while the caller sleeps). *)
Variable elapse : Z -> W -> W.

(** ** The monad of the helpers *)

Definition M (A : Type) : Type := State W -> Outcome W A.

Definition ret {A} (a : A) : M A := fun s => Done a s.

Definition bind {A B} (m : M A) (k : A -> M B) : M B :=
  fun s => match m s with
           | Done a s' => k a s'
           | Panic s' => Panic s'
           end.

Notation "x <- m ;; k" := (bind m (fun x => k))
  (at level 100, m at next level, right associativity).
Notation "m ;;; k" := (bind m (fun _ => k))
  (at level 100, right associativity).

Definition panic {A} : M A := fun s => Panic s.

(** [*p] for a pointer [p]. *)
Definition deref {A} (p : option A) : M A :=
  match p with
  | Some a => ret a
  | None => panic
  end.

(** [xs[i]] for a slice [xs]. *)
Definition index {A} (xs : list A) (i : nat) : M A :=
  deref (nth_error xs i).

Definition record (ev : Event) (w : W) (s : State W) : State W :=
  {| world := w; trace := trace s ++ [ev]; logs := logs s |}.

Definition log_Printf (format : string) (args : list fmtArg) : M unit :=
  fun s => Done tt {| world := world s; trace := trace s;
                      logs := logs s ++ [(format, args)] |}.

Definition time_Sleep (d : Z) : M unit :=
  fun s => Done tt (record (EvSleep d) (elapse d (world s)) s).

Definition client_AddMember (groupId : string)
           (properties : GroupAddMemberParameters) : M (option error) :=
  fun s =>
    let (err, w) := GroupsClient.AddMember client groupId properties (world s) in
    Done err (record (EvAddMember groupId properties err) w s).

Definition client_AddOwner (groupId : string)
           (properties : AddOwnerParameters) : M (option error) :=
  fun s =>
    let (err, w) := GroupsClient.AddOwner client groupId properties (world s) in
    Done err (record (EvAddOwner groupId properties err) w s).

Definition client_GetGroupMembersComplete (groupId : string)
  : M (result DirectoryObjectListResultIterator) :=
  fun s =>
    let (r, w) := GroupsClient.GetGroupMembersComplete client groupId (world s) in
    Done r (record (EvGetGroupMembersComplete groupId) w s).


Definition client_List (filter : string) : M (result GroupListResultPage) :=
  fun s =>
    let (r, w) := GroupsClient.List client filter (world s) in
    Done r (record (EvList filter) w s).

Definition client_ListComplete (filter : string)
  : M (result GroupListResultIterator) :=
  fun s =>
    let (r, w) := GroupsClient.ListComplete client filter (world s) in
    Done r (record (EvListComplete filter) w s).


(** ** The poller *)

(** The attempt budget and the fixed delay of the poller. *)
Variable poll_attempts : nat.
Variable poll_delay : Z.

(** Modelled from the spec: [WaitForListAdd] is defined in another file of
    the package.  Section 4.4 of
    the specification: the producer is invoked repeatedly; an error of the
    producer is surfaced at once; a list that contains the target is
    returned at once; otherwise the poller waits a fixed delay and tries
    again, and when the budget is used up it returns a timeout error that
    identifies the target. *)
Fixpoint WaitForListAdd_poll (budget : nat) (target : string)
         (produceCurrentList : M (result (list string)))
  : M (result (list string)) :=
  match budget with
  | O => ret (Err (Errorf "timed out waiting for %q to appear in the list"
                          [ArgStr target]))
  | S budget' =>
      r <- produceCurrentList ;;
      match r with
      | Err err => ret (Err err)
      | Ok current =>
          if existsb (String.eqb target) current
          then ret (Ok current)
          else (time_Sleep poll_delay ;;;
                WaitForListAdd_poll budget' target produceCurrentList)
      end
  end.

(** Modelled from the spec: [WaitForListAdd] with the attempt budget of the
    poller (section 4.4 of the specification). *)
Definition WaitForListAdd (target : string)
           (produceCurrentList : M (result (list string)))
  : M (result (list string)) :=
  WaitForListAdd_poll poll_attempts target produceCurrentList.

(** ** Listing *)

(** [append(ids, id)] on a slice. *)
Definition append {A} (xs : list A) (x : A) : list A := (xs ++ [x])%list.

(** One round of the three projections in the body of the loop of
    [DirectoryObjectListToIDs]: each [if x != nil] appends [*x.ObjectID]. *)
Definition appendObjectIDs (v : BasicDirectoryObject) (ids : list string)
  : M (list string) :=
  ids <- match AsUser v with
         | Some user => id <- deref (User.ObjectID user) ;; ret (append ids id)
         | None => ret ids
         end ;;
  ids <- match AsADGroup v with
         | Some group => id <- deref (ADGroup.ObjectID group) ;; ret (append ids id)
         | None => ret ids
         end ;;
  match AsServicePrincipal v with
  | Some servicePrincipal =>
      id <- deref (ServicePrincipal.ObjectID servicePrincipal) ;;
      ret (append ids id)
  | None => ret ids
  end.

(** The loop [for objects.NotDone() { ... objects.NextWithContext(ctx) }]. *)
Fixpoint DirectoryObjectListToIDs_from
         (objects : DirectoryObjectListResultIterator) (ids : list string)
  : M (result (list string)) :=
  match objects with
  | IterDone => ret (Ok ids)
  | IterItem v next =>
      ids <- appendObjectIDs v ids ;;
      DirectoryObjectListToIDs_from next ids
  | IterFail v err =>
      ids <- appendObjectIDs v ids ;;
      ret (Err (Errorf "during pagination of directory objects: %+v"
                       [ArgErr err]))
  end.

Definition DirectoryObjectListToIDs
           (objects : DirectoryObjectListResultIterator)
  : M (result (list string)) :=
  DirectoryObjectListToIDs_from objects [].

Definition GroupAllMembers (groupId : string) : M (result (list string)) :=
  r <- client_GetGroupMembersComplete groupId ;;
  match r with
  | Err err =>
      ret (Err (Errorf
        "listing existing group members from Azure AD Group with ID %q: %+v"
        [ArgStr groupId; ArgErr err]))
  | Ok members =>
      r <- DirectoryObjectListToIDs members ;;
      match r with
      | Err err =>
          ret (Err (Errorf
            "getting objects IDs of group members for Azure AD Group with ID %q: %+v"
            [ArgStr groupId; ArgErr err]))
      | Ok existingMembers =>
          log_Printf "[DEBUG] %d members in Azure AD group with ID: %q"
                     [ArgInt (Z.of_nat (length existingMembers)); ArgStr groupId] ;;;
          ret (Ok existingMembers)
      end
  end.


(** ** Adding members *)

(** [fmt.Sprintf("https://graph.windows.net/%s/directoryObjects/%s", ...)]. *)
Definition directoryObjectURL (tenantID objectId : string) : string :=
  "https://graph.windows.net/" ++ tenantID ++ "/directoryObjects/" ++ objectId.

(** How the retry loop of [GroupAddMember] is left. *)
Inductive LoopExit : Type :=
| LoopBreak
| LoopReturn (err : error)
| LoopCondition.

Definition attempts : nat := 10.

(** [for i := 0; i <= attempts; i++ { ... }], with [n] the number of values
    of [i] that are still to come. *)
Fixpoint GroupAddMember_loop (groupId member : string)
         (properties : GroupAddMemberParameters) (n i : nat) : M LoopExit :=
  match n with
  | O => ret LoopCondition
  | S n' =>
      err <- client_AddMember groupId properties ;;
      match err with
      | None => ret LoopBreak
      | Some err =>
          if Nat.eqb i attempts
          then ret (LoopReturn (Errorf
                 "adding group member %q to Azure AD Group with ID %q: %+v"
                 [ArgStr member; ArgStr groupId; ArgErr err]))
          else (time_Sleep (time_Second * 2) ;;;
                GroupAddMember_loop groupId member properties n' (S i))
      end
  end.

Definition GroupAddMember (groupId member : string) : M (option error) :=
  let memberGraphURL :=
    directoryObjectURL (GroupsClient.TenantID client) member in
  let properties := {| URL := Some memberGraphURL |} in
  log_Printf "[DEBUG] Adding member with id %q to Azure AD group with id %q"
             [ArgStr member; ArgStr groupId] ;;;
  exit <- GroupAddMember_loop groupId member properties (S attempts) 0 ;;
  match exit with
  | LoopReturn err => ret (Some err)
  | LoopBreak | LoopCondition =>
      r <- WaitForListAdd member (GroupAllMembers groupId) ;;
      match r with
      | Err err =>
          ret (Some (Errorf "waiting for group membership: %+v" [ArgErr err]))
      | Ok _ => ret None
      end
  end.

Fixpoint GroupAddMembers (groupId : string) (members : list string)
  : M (option error) :=
  match members with
  | [] => ret None
  | memberUuid :: members' =>
      err <- GroupAddMember groupId memberUuid ;;
      match err with
      | Some err =>
          ret (Some (Errorf
            "while adding members to Azure AD Group with ID %q: %+v"
            [ArgStr groupId; ArgErr err]))
      | None => GroupAddMembers groupId members'
      end
  end.

(** ** Adding owners *)

Definition GroupAddOwner (groupId owner : string) : M (option error) :=
  let ownerGraphURL :=
    directoryObjectURL (GroupsClient.TenantID client) owner in
  let properties := {| OwnerURL := Some ownerGraphURL |} in
  log_Printf "[DEBUG] Adding owner with id %q to Azure AD group with id %q"
             [ArgStr owner; ArgStr groupId] ;;;
  err <- client_AddOwner groupId properties ;;
  match err with
  | Some err =>
      ret (Some (Errorf
        "adding group owner %q to Azure AD Group with ID %q: %+v"
        [ArgStr owner; ArgStr groupId; ArgErr err]))
  | None => ret None
  end.

Fixpoint GroupAddOwners (groupId : string) (owner : list string)
  : M (option error) :=
  match owner with
  | [] => ret None
  | ownerUuid :: owner' =>
      err <- GroupAddOwner groupId ownerUuid ;;
      match err with
      | Some err =>
          ret (Some (Errorf
            "while adding owners to Azure AD Group with ID %q: %+v"
            [ArgStr groupId; ArgErr err]))
      | None => GroupAddOwners groupId owner'
      end
  end.

(** ** Looking groups up by name *)

(** [fmt.Sprintf("displayName eq '%s'", displayName)]. *)
Definition displayNameFilter (displayName : string) : string :=
  "displayName eq '" ++ displayName ++ "'".

Definition GroupGetByDisplayName (displayName : string)
  : M (result ADGroup.t) :=
  let filter := displayNameFilter displayName in
  r <- client_ListComplete filter ;;
  match r with
  | Err err =>
      ret (Err (Errorf "listing Azure AD Groups for filter %q: %+v"
                       [ArgStr filter; ArgErr err]))
  | Ok resp =>
      match Value (Response resp) with
      | None =>
          ret (Err (Errorf "nil values for AD Groups matching %q"
                           [ArgStr filter]))
      | Some values =>
          if Nat.eqb (length values) 0
          then ret (Err (Errorf "found no AD Groups matching %q"
                                [ArgStr filter]))
          else if Nat.ltb 2 (length values)
          then ret (Err (Errorf "found multiple AD Groups matching %q"
                                [ArgStr filter]))
          else
            group <- index values 0 ;;
            match ADGroup.DisplayName group with
            | None =>
                ret (Err (Errorf "nil DisplayName for AD Groups matching %q"
                                 [ArgStr filter]))
            | Some name =>
                if negb (String.eqb name displayName)
                then ret (Err (Errorf
                  "displayname for AD Groups matching %q does is does not match(%q!=%q)"
                  [ArgStr filter; ArgStr name; ArgStr displayName]))
                else ret (Ok group)
            end
      end
  end.

(** [for _, group := range resp.Values() { ... }] of [GroupFindByName]. *)
Fixpoint GroupFindByName_range (name : string) (groups : list ADGroup.t)
  : M (result (option ADGroup.t)) :=
  match groups with
  | [] => ret (Ok None)
  | group :: groups' =>
      displayName <- deref (ADGroup.DisplayName group) ;;
      if String.eqb displayName name
      then ret (Ok (Some group))
      else GroupFindByName_range name groups'
  end.

Definition GroupFindByName (name : string) : M (result (option ADGroup.t)) :=
  let nameFilter := displayNameFilter name in
  r <- client_List nameFilter ;;
  match r with
  | Err err =>
      ret (Err (Errorf "unable to list Groups with filter %q: %+v"
                       [ArgStr nameFilter; ArgErr err]))
  | Ok resp => GroupFindByName_range name (Values resp)
  end.


(** ** Checking that a name is free *)

(** [fmt.Warnf] is not a function of the Go standard library and the package
    does not define it here: it is taken as it is called, a function from a
    format and its operands to an [error] value, which may be [nil]. *)
Variable fmt_Warnf : string -> list fmtArg -> option error.

Definition GroupCheckNameAvailability (name : string) : M (option error) :=
  r <- GroupFindByName name ;;
  match r with
  | Err err => ret (Some err)
  | Ok (Some existingGroup) =>
      objectID <- deref (ADGroup.ObjectID existingGroup) ;;
      ret (fmt_Warnf
             "existing Azure Active Directory Group with name %q (ObjID: %q) was found and `prevent_duplicate_names` was specified"
             [ArgStr name; ArgStr objectID])
  | Ok None => ret None
  end.

(** * Properties *)

(** ** Vocabulary *)

(** The client refuses every [AddMember] call, whatever the state of the
    directory. *)
Definition always_fails : Prop :=
  forall groupId properties w,
    fst (GroupsClient.AddMember client groupId properties w) <> None.

(** The events of a run of failed attempts, each followed by its pause of
    two seconds. *)
Definition failed_attempts (groupId : string)
           (properties : GroupAddMemberParameters) (errs : list error)
  : list Event :=
  flat_map (fun err => [EvAddMember groupId properties (Some err);
                        EvSleep (time_Second * 2)]) errs.

(** [succeeds_on_attempt g p k w errs w']: from the directory [w], repeated
    [AddMember g p] calls spaced by pauses of two seconds fail [k - 1] times,
    with the errors [errs], and the call number [k] succeeds, leaving [w']. *)
Inductive succeeds_on_attempt (groupId : string)
          (properties : GroupAddMemberParameters)
  : nat -> W -> list error -> W -> Prop :=
| succeeds_now w w' :
    GroupsClient.AddMember client groupId properties w = (None, w') ->
    succeeds_on_attempt groupId properties 1 w [] w'
| succeeds_later k w err w1 errs w' :
    GroupsClient.AddMember client groupId properties w = (Some err, w1) ->
    succeeds_on_attempt groupId properties k
                        (elapse (time_Second * 2) w1) errs w' ->
    succeeds_on_attempt groupId properties (S k) w (err :: errs) w'.

(** The parameters [GroupAddMember] builds for a member. *)
Definition memberParameters (member : string) : GroupAddMemberParameters :=
  {| URL := Some (directoryObjectURL (GroupsClient.TenantID client) member) |}.

(** The parameters [GroupAddOwner] builds for an owner. *)
Definition ownerParameters (owner : string) : AddOwnerParameters :=
  {| OwnerURL := Some (directoryObjectURL (GroupsClient.TenantID client) owner) |}.

(** The state in which the retry loop of [GroupAddMember] starts: the
    debug line has been logged. *)
Definition announced (groupId member : string) (s : State W) : State W :=
  {| world := world s; trace := trace s;
     logs := (logs s ++
              [("[DEBUG] Adding member with id %q to Azure AD group with id %q",
                [ArgStr member; ArgStr groupId])])%list |}.

(** The state in which the retry loop of [GroupAddMember] stops when the
    add call goes through after the failures [errs], leaving [w']. *)
Definition added (groupId member : string) (errs : list error) (w' : W)
           (s : State W) : State W :=
  {| world := w';
     trace := (trace s
                 ++ failed_attempts groupId (memberParameters member) errs
                 ++ [EvAddMember groupId (memberParameters member) None])%list;
     logs := logs (announced groupId member s) |}.

(** What [GroupAddMember] makes of the result of the poll. *)
Definition poll_verdict (o : Outcome W (result (list string)))
  : Outcome W (option error) :=
  match o with
  | Done (Ok _) s => Done None s
  | Done (Err err) s =>
      Done (Some (Errorf "waiting for group membership: %+v" [ArgErr err])) s
  | Panic s => Panic s
  end.

(** [members_added g ms s s']: [GroupAddMember g] applied to the elements of
    [ms] one after the other, from [s], succeeds on each and ends in [s']. *)
Inductive members_added (groupId : string)
  : list string -> State W -> State W -> Prop :=
| added_none s : members_added groupId [] s s
| added_next member members s s1 s' :
    GroupAddMember groupId member s = Done None s1 ->
    members_added groupId members s1 s' ->
    members_added groupId (member :: members) s s'.

(** [owners_added g os s s']: [GroupAddOwner g] applied to the elements of
    [os] one after the other, from [s], succeeds on each and ends in [s']. *)
Inductive owners_added (groupId : string)
  : list string -> State W -> State W -> Prop :=
| owners_none s : owners_added groupId [] s s
| owners_next owner owners s s1 s' :
    GroupAddOwner groupId owner s = Done None s1 ->
    owners_added groupId owners s1 s' ->
    owners_added groupId (owner :: owners) s s'.

(** The [AddOwner] calls for the first owners of a list, one for each
    result given. *)
Definition owner_events (groupId : string) (owners : list string)
           (ress : list (option error)) : list Event :=
  map (fun call => EvAddOwner groupId (ownerParameters (snd call)) (fst call))
      (combine ress owners).

(** The error [GroupAddOwners] returns when the add for [owner] fails with
    [err]. *)
Definition owner_refused (groupId owner : string) (err : error) : error :=
  Errorf "while adding owners to Azure AD Group with ID %q: %+v"
    [ArgStr groupId;
     ArgErr (Errorf "adding group owner %q to Azure AD Group with ID %q: %+v"
                    [ArgStr owner; ArgStr groupId; ArgErr err])].

(** ** Traces of the retry loop *)

Lemma failed_attempts_count (groupId : string)
      (properties : GroupAddMemberParameters) (errs : list error)
      (res : option error) :
  length (filter is_AddMember
            (failed_attempts groupId properties errs
               ++ [EvAddMember groupId properties res])) = S (length errs)
  /\ length (filter is_Sleep
               (failed_attempts groupId properties errs
                  ++ [EvAddMember groupId properties res])) = length errs.
Proof.
  induction errs as [|err errs [IHa IHs]]; simpl; [split; reflexivity|].
  rewrite IHa, IHs. split; reflexivity.
Qed.

Lemma loop_always_fails (groupId member : string)
      (properties : GroupAddMemberParameters) :
  always_fails ->
  forall n i s,
    i + n = S attempts -> n <> 0 ->
    exists errs err s',
      GroupAddMember_loop groupId member properties n i s
      = Done (LoopReturn (Errorf
          "adding group member %q to Azure AD Group with ID %q: %+v"
          [ArgStr member; ArgStr groupId; ArgErr err])) s'
      /\ trace s' = (trace s ++ failed_attempts groupId properties errs
                       ++ [EvAddMember groupId properties (Some err)])%list
      /\ logs s' = logs s
      /\ length errs = n - 1.
Proof.
  intros Hfail n. induction n as [|n IH]; intros i s Hi Hn; [congruence|].
  simpl. unfold bind, client_AddMember.
  specialize (Hfail groupId properties (world s)).
  destruct (GroupsClient.AddMember client groupId properties (world s))
    as [[err|] w1] eqn:Hcall; simpl in Hfail; [clear Hfail|congruence].
  destruct (Nat.eqb_spec i attempts) as [Hlast|Hmore].
  - exists [], err. eexists. unfold ret. repeat split.
    unfold attempts in *. simpl. lia.
  - unfold time_Sleep.
    destruct (IH (S i)
                (record (EvSleep (time_Second * 2))
                   (elapse (time_Second * 2)
                      (world (record (EvAddMember groupId properties (Some err)) w1 s)))
                   (record (EvAddMember groupId properties (Some err)) w1 s)))
      as (errs & err' & s' & Hrun & Htrace & Hlogs & Hlen).
    + lia.
    + unfold attempts in *. lia.
    + exists (err :: errs), err', s'. repeat split.
      * exact Hrun.
      * rewrite Htrace. simpl. rewrite <- !app_assoc. reflexivity.
      * rewrite Hlogs. reflexivity.
      * simpl. unfold attempts in *. lia.
Qed.

Lemma loop_succeeds (groupId member : string)
      (properties : GroupAddMemberParameters) :
  forall k w errs w',
    succeeds_on_attempt groupId properties k w errs w' ->
    forall n i s,
      world s = w -> k <= n -> i + n = S attempts ->
      GroupAddMember_loop groupId member properties n i s
      = Done LoopBreak
             {| world := w';
                trace := (trace s ++ failed_attempts groupId properties errs
                            ++ [EvAddMember groupId properties None])%list;
                logs := logs s |}
      /\ length errs = k - 1.
Proof.
  induction 1 as [w w' Hcall|k w err w1 errs w' Hcall Hrest IH];
    intros n i s Hw Hk Hi.
  - destruct n as [|n]; [lia|]. simpl. unfold bind, client_AddMember.
    rewrite Hw, Hcall. split; reflexivity.
  - destruct n as [|n]; [lia|]. simpl. unfold bind, client_AddMember.
    rewrite Hw, Hcall.
    assert (Hk' : 1 <= k) by (inversion Hrest; lia).
    destruct (Nat.eqb_spec i attempts) as [Hlast|Hmore];
      [unfold attempts in *; lia|].
    unfold time_Sleep.
    edestruct (IH n (S i)) as [Hrun Hlen]; [| |lia|].
    3: { rewrite Hrun. split.
         - simpl. rewrite <- !app_assoc. reflexivity.
         - simpl. lia. }
    + reflexivity.
    + lia.
Qed.

(** ** Listing and polling leave the membership calls alone *)

Ltac run_step :=
  unfold bind, ret, panic, deref, index, log_Printf, time_Sleep; simpl.

Lemma appendObjectIDs_final (v : BasicDirectoryObject) (ids : list string)
      (s : State W) :
  final_state (appendObjectIDs v ids s) = s.
Proof.
  unfold appendObjectIDs. run_step.
  destruct (AsUser v) as [[[id|]]|]; simpl; try reflexivity;
    destruct (AsADGroup v) as [[[id'|] name]|]; simpl; try reflexivity;
    destruct (AsServicePrincipal v) as [[[id''|]]|]; reflexivity.
Qed.

Lemma DirectoryObjectListToIDs_from_final
      (objects : DirectoryObjectListResultIterator) :
  forall ids s, final_state (DirectoryObjectListToIDs_from objects ids s) = s.
Proof.
  induction objects as [|v next IH|v err]; intros ids s; simpl.
  - reflexivity.
  - unfold bind. pose proof (appendObjectIDs_final v ids s) as Hv.
    destruct (appendObjectIDs v ids s) as [ids' s1|s1]; simpl in Hv; subst s1;
      [apply IH|reflexivity].
  - unfold bind. pose proof (appendObjectIDs_final v ids s) as Hv.
    destruct (appendObjectIDs v ids s) as [ids' s1|s1]; simpl in Hv; subst s1;
      reflexivity.
Qed.

Lemma GroupAllMembers_trace (groupId : string) (s : State W) :
  trace (final_state (GroupAllMembers groupId s))
  = (trace s ++ [EvGetGroupMembersComplete groupId])%list.
Proof.
  unfold GroupAllMembers, bind, client_GetGroupMembersComplete.
  destruct (GroupsClient.GetGroupMembersComplete client groupId (world s))
    as [[members|err] w1]; [|reflexivity].
  unfold DirectoryObjectListToIDs.
  pose proof (DirectoryObjectListToIDs_from_final members []
                (record (EvGetGroupMembersComplete groupId) w1 s)) as Hl.
  destruct (DirectoryObjectListToIDs_from members []
              (record (EvGetGroupMembersComplete groupId) w1 s))
    as [[existingMembers|err] s1|s1]; simpl in Hl; subst s1; reflexivity.
Qed.

Lemma WaitForListAdd_poll_trace (groupId target : string) :
  forall budget s,
    exists evs,
      trace (final_state
               (WaitForListAdd_poll budget target (GroupAllMembers groupId) s))
      = (trace s ++ evs)%list
      /\ filter is_AddMember evs = [].
Proof.
  induction budget as [|budget IH]; intros s; simpl.
  - exists []. rewrite app_nil_r. split; reflexivity.
  - unfold bind. pose proof (GroupAllMembers_trace groupId s) as Hl.
    destruct (GroupAllMembers groupId s) as [[current|err] s1|s1];
      simpl in Hl.
    + destruct (existsb (String.eqb target) current).
      * exists [EvGetGroupMembersComplete groupId]. split; [exact Hl|reflexivity].
      * unfold time_Sleep.
        destruct (IH (record (EvSleep poll_delay) (elapse poll_delay (world s1)) s1))
          as (evs & Htrace & Hnone).
        exists (EvGetGroupMembersComplete groupId :: EvSleep poll_delay :: evs).
        split; [|exact Hnone].
        rewrite Htrace. simpl. rewrite Hl, <- !app_assoc. reflexivity.
    + exists [EvGetGroupMembersComplete groupId]. split; [exact Hl|reflexivity].
    + exists [EvGetGroupMembersComplete groupId]. split; [exact Hl|reflexivity].
Qed.

(** The contract of the poller: a list it returns was produced by the last
    call of the producer and contains the target. *)
Lemma WaitForListAdd_poll_observed (target : string)
      (produceCurrentList : M (result (list string))) :
  forall budget s current s',
    WaitForListAdd_poll budget target produceCurrentList s = Done (Ok current) s' ->
    In target current
    /\ exists s0, produceCurrentList s0 = Done (Ok current) s'.
Proof.
  induction budget as [|budget IH]; intros s current s' Hrun; simpl in Hrun.
  - discriminate.
  - unfold bind in Hrun.
    destruct (produceCurrentList s) as [[listed|err] s1|s1] eqn:Hprod;
      try discriminate.
    destruct (existsb (String.eqb target) listed) eqn:Hfound.
    + inversion Hrun; subst. split.
      * apply existsb_exists in Hfound. destruct Hfound as (x & Hin & Heq).
        apply String.eqb_eq in Heq. subst x. exact Hin.
      * exists s. exact Hprod.
    + unfold time_Sleep in Hrun. apply IH in Hrun. exact Hrun.
Qed.

Lemma poll_verdict_final (o : Outcome W (result (list string))) :
  final_state (poll_verdict o) = final_state o.
Proof. destruct o as [[current|err] s|s]; reflexivity. Qed.

(** [GroupAddMember] once the add call has gone through on attempt [k]. *)
Lemma GroupAddMember_after_success (groupId member : string) (s : State W)
      (k : nat) (errs : list error) (w' : W) :
  k <= S attempts ->
  succeeds_on_attempt groupId (memberParameters member) k (world s) errs w' ->
  GroupAddMember_loop groupId member (memberParameters member) (S attempts) 0
                      (announced groupId member s)
  = Done LoopBreak (added groupId member errs w' s)
  /\ GroupAddMember groupId member s
     = poll_verdict (WaitForListAdd member (GroupAllMembers groupId)
                                    (added groupId member errs w' s))
  /\ length errs = k - 1.
Proof.
  intros Hk Hsucc.
  destruct (loop_succeeds groupId member (memberParameters member)
              k (world s) errs w' Hsucc (S attempts) 0
              (announced groupId member s))
    as [Hrun Hlen]; [reflexivity|exact Hk|reflexivity|].
  split; [exact Hrun|]. split; [|exact Hlen].
  unfold GroupAddMember, bind at 1, log_Printf.
  fold (memberParameters member). fold (announced groupId member s).
  unfold bind at 1. rewrite Hrun. simpl. unfold bind, ret.
  destruct (WaitForListAdd member (GroupAllMembers groupId) _)
    as [[current|err] s2|s2]; reflexivity.
Qed.

(** ** The retry loop of [GroupAddMember] *)

(** C1: against a client whose [AddMember] call fails on every invocation,
    [GroupAddMember g m] issues exactly 11 [AddMember] calls with a pause of
    two seconds between consecutive ones (10 pauses) and returns the error
    that names [m] and [g] and wraps the error of the last call; when the
    call first succeeds on attempt [k], [1 <= k <= 11], the loop stops right
    after that attempt, having made [k] calls and [k - 1] pauses, and no
    further [AddMember] call is issued by the rest of the function. *)
Theorem GroupAddMember_retries (groupId member : string) (s : State W) :
  (always_fails ->
   exists errs err s',
     GroupAddMember groupId member s
     = Done (Some (Errorf
         "adding group member %q to Azure AD Group with ID %q: %+v"
         [ArgStr member; ArgStr groupId; ArgErr err])) s'
     /\ trace s'
        = (trace s
             ++ failed_attempts groupId (memberParameters member) errs
             ++ [EvAddMember groupId (memberParameters member) (Some err)])%list
     /\ length (filter is_AddMember
                  (failed_attempts groupId (memberParameters member) errs
                     ++ [EvAddMember groupId (memberParameters member) (Some err)]))
        = 11
     /\ length (filter is_Sleep
                  (failed_attempts groupId (memberParameters member) errs
                     ++ [EvAddMember groupId (memberParameters member) (Some err)]))
        = 10)
  /\
  (forall k errs w',
     1 <= k <= 11 ->
     succeeds_on_attempt groupId (memberParameters member) k (world s) errs w' ->
     GroupAddMember_loop groupId member (memberParameters member) 11 0
                         (announced groupId member s)
     = Done LoopBreak (added groupId member errs w' s)
     /\ length (filter is_AddMember
                  (failed_attempts groupId (memberParameters member) errs
                     ++ [EvAddMember groupId (memberParameters member) None]))
        = k
     /\ length (filter is_Sleep
                  (failed_attempts groupId (memberParameters member) errs
                     ++ [EvAddMember groupId (memberParameters member) None]))
        = k - 1
     /\ exists evs,
         trace (final_state (GroupAddMember groupId member s))
         = (trace (added groupId member errs w' s) ++ evs)%list
         /\ filter is_AddMember evs = []).
Proof.
  split.
  - intros Hfail.
    destruct (loop_always_fails groupId member (memberParameters member) Hfail
                (S attempts) 0 (announced groupId member s))
      as (errs & err & s' & Hrun & Htrace & _ & Hlen);
      [reflexivity|discriminate|].
    exists errs, err, s'.
    destruct (failed_attempts_count groupId (memberParameters member) errs
                (Some err)) as [Hcalls Hsleeps].
    repeat split.
    + unfold GroupAddMember, bind at 1, log_Printf.
      fold (memberParameters member). fold (announced groupId member s).
      unfold bind. rewrite Hrun. reflexivity.
    + exact Htrace.
    + rewrite Hcalls, Hlen. reflexivity.
    + rewrite Hsleeps, Hlen. reflexivity.
  - intros k errs w' [Hk1 Hk11] Hsucc.
    destruct (GroupAddMember_after_success groupId member s k errs w' Hk11 Hsucc)
      as (Hloop & Hrun & Hlen).
    destruct (failed_attempts_count groupId (memberParameters member) errs None)
      as [Hcalls Hsleeps].
    repeat split.
    + exact Hloop.
    + rewrite Hcalls, Hlen. lia.
    + rewrite Hsleeps. exact Hlen.
    + rewrite Hrun, poll_verdict_final.
      apply WaitForListAdd_poll_trace.
Qed.

(** ** The poll after a successful add *)

(** C2: once the add call has gone through, on the first or on a later
    attempt, [GroupAddMember g m] hands over to the poller with target [m]
    and the producer [GroupAllMembers g]; an error of the poll is returned
    wrapped, a panic of the producer is passed on, and [nil] is returned
    only when the last listing the producer made contains [m]. *)
Theorem GroupAddMember_waits_for_membership (groupId member : string)
        (s : State W) :
  (forall k errs w',
     1 <= k <= 11 ->
     succeeds_on_attempt groupId (memberParameters member) k (world s) errs w' ->
     GroupAddMember groupId member s
     = match WaitForListAdd member (GroupAllMembers groupId)
                            (added groupId member errs w' s) with
       | Done (Ok _) s' => Done None s'
       | Done (Err err) s' =>
           Done (Some (Errorf "waiting for group membership: %+v"
                              [ArgErr err])) s'
       | Panic s' => Panic s'
       end)
  /\
  (forall s',
     GroupAddMember groupId member s = Done None s' ->
     exists current s0 s1,
       WaitForListAdd member (GroupAllMembers groupId) s0 = Done (Ok current) s'
       /\ GroupAllMembers groupId s1 = Done (Ok current) s'
       /\ In member current).
Proof.
  split.
  - intros k errs w' [_ Hk] Hsucc.
    destruct (GroupAddMember_after_success groupId member s k errs w' Hk Hsucc)
      as (_ & Hrun & _).
    exact Hrun.
  - intros s' Hnil.
    unfold GroupAddMember, bind at 1, log_Printf in Hnil.
    unfold bind at 1 in Hnil.
    destruct (GroupAddMember_loop groupId member _ (S attempts) 0 _)
      as [[|err|] s1|s1]; try discriminate.
    + unfold bind, ret in Hnil.
      destruct (WaitForListAdd member (GroupAllMembers groupId) s1)
        as [[current|err] s2|s2] eqn:Hpoll; try discriminate.
      inversion Hnil; subst s2.
      destruct (WaitForListAdd_poll_observed member (GroupAllMembers groupId)
                  poll_attempts s1 current s' Hpoll) as [Hin [s0 Hlist]].
      exists current, s1, s0. repeat split; assumption.
    + unfold bind, ret in Hnil.
      destruct (WaitForListAdd member (GroupAllMembers groupId) s1)
        as [[current|err] s2|s2] eqn:Hpoll; try discriminate.
      inversion Hnil; subst s2.
      destruct (WaitForListAdd_poll_observed member (GroupAllMembers groupId)
                  poll_attempts s1 current s' Hpoll) as [Hin [s0 Hlist]].
      exists current, s1, s0. repeat split; assumption.
Qed.

(** ** Adding several members *)

Lemma members_added_run (groupId : string) (members : list string)
      (s s' : State W) :
  members_added groupId members s s' ->
  GroupAddMembers groupId members s = Done None s'.
Proof.
  induction 1 as [s|member members s s1 s' Hone _ IH]; simpl.
  - reflexivity.
  - unfold bind. rewrite Hone. exact IH.
Qed.

Lemma run_members_added (groupId : string) (members : list string) :
  forall s s',
    GroupAddMembers groupId members s = Done None s' ->
    members_added groupId members s s'.
Proof.
  induction members as [|member members IH]; intros s s' Hrun; simpl in Hrun.
  - inversion Hrun. constructor.
  - unfold bind in Hrun.
    destruct (GroupAddMember groupId member s) as [[err|] s1|s1] eqn:Hone;
      try discriminate.
    econstructor; [exact Hone|]. apply IH. exact Hrun.
Qed.

(** C9: [GroupAddMembers g ms] returns [nil] exactly when [GroupAddMember g]
    applied to the elements of [ms] one after the other, in the order of the
    list, succeeds on each; when it fails on an element after succeeding on
    the elements before it, [GroupAddMembers] returns the error that names
    [g] and wraps that failure, in the very state the failed call left:
    nothing is attempted for the later elements and nothing is undone. *)
Theorem GroupAddMembers_sequential (groupId : string) :
  (forall members s s',
     members_added groupId members s s'
     <-> GroupAddMembers groupId members s = Done None s')
  /\
  (forall before member later s s1 err s2,
     members_added groupId before s s1 ->
     GroupAddMember groupId member s1 = Done (Some err) s2 ->
     GroupAddMembers groupId (before ++ member :: later) s
     = Done (Some (Errorf
         "while adding members to Azure AD Group with ID %q: %+v"
         [ArgStr groupId; ArgErr err])) s2).
Proof.
  split.
  - intros members s s'. split.
    + apply members_added_run.
    + apply run_members_added.
  - intros before member later s s1 err s2 Hbefore.
    induction Hbefore as [s|m ms s sm s1 Hone _ IH]; intros Hfail; simpl.
    + unfold bind. rewrite Hfail. reflexivity.
    + unfold bind. rewrite Hone. apply IH. exact Hfail.
Qed.

(** ** Adding an owner *)

Lemma GroupAddOwner_run (groupId owner : string) (s : State W) :
  forall res w',
    GroupsClient.AddOwner client groupId
      (ownerParameters owner)
      (world s) = (res, w') ->
    GroupAddOwner groupId owner s
    = Done match res with
           | Some err =>
               Some (Errorf
                 "adding group owner %q to Azure AD Group with ID %q: %+v"
                 [ArgStr owner; ArgStr groupId; ArgErr err])
           | None => None
           end
           {| world := w';
              trace := (trace s ++
                [EvAddOwner groupId
                   (ownerParameters owner)
                   res])%list;
              logs := (logs s ++
                [("[DEBUG] Adding owner with id %q to Azure AD group with id %q",
                  [ArgStr owner; ArgStr groupId])])%list |}.
Proof.
  intros res w' Hcall.
  unfold GroupAddOwner, bind, log_Printf, client_AddOwner. simpl.
  fold (ownerParameters owner).
  rewrite Hcall. destruct res; reflexivity.
Qed.

(** C6: [GroupAddOwner g o] issues one [AddOwner] call, whatever its outcome:
    the call is the only event it adds to the trace, so there is no second
    attempt, no pause and no listing; when the call succeeds the function
    returns [nil] at once, and when it fails the error is returned wrapped. *)
Theorem GroupAddOwner_single_attempt (groupId owner : string) (s : State W) :
  exists res s',
    GroupAddOwner groupId owner s
    = Done match res with
           | Some err =>
               Some (Errorf
                 "adding group owner %q to Azure AD Group with ID %q: %+v"
                 [ArgStr owner; ArgStr groupId; ArgErr err])
           | None => None
           end s'
    /\ res = fst (GroupsClient.AddOwner client groupId
                    (ownerParameters owner)
                    (world s))
    /\ world s' = snd (GroupsClient.AddOwner client groupId
                    (ownerParameters owner)
                    (world s))
    /\ trace s'
       = (trace s ++
            [EvAddOwner groupId
               (ownerParameters owner)
               res])%list.
Proof.
  destruct (GroupsClient.AddOwner client groupId
              (ownerParameters owner)
              (world s)) as [res w'] eqn:Hcall.
  exists res. eexists. split.
  - apply GroupAddOwner_run. exact Hcall.
  - simpl. repeat split.
Qed.

(** ** Strict lookup by display name *)

(** What [GroupGetByDisplayName] returns for a listing, spelled out. *)
Lemma GroupGetByDisplayName_run (displayName : string) (s : State W) :
  forall r w',
    GroupsClient.ListComplete client (displayNameFilter displayName) (world s)
    = (r, w') ->
    exists out,
      GroupGetByDisplayName displayName s
      = Done out (record (EvListComplete (displayNameFilter displayName)) w' s)
      /\ match r with
         | Err _ => exists e, out = Err e
         | Ok resp =>
             match Value (Response resp) with
             | None | Some [] => exists e, out = Err e
             | Some (first :: rest) =>
                 if Nat.ltb 1 (length rest)
                 then exists e, out = Err e
                 else match ADGroup.DisplayName first with
                      | None => exists e, out = Err e
                      | Some name =>
                          if String.eqb name displayName
                          then out = Ok first
                          else exists e, out = Err e
                      end
             end
         end.
Proof.
  intros r w' Hcall.
  unfold GroupGetByDisplayName, bind, client_ListComplete.
  rewrite Hcall.
  destruct r as [resp|err]; [|eexists; split; [reflexivity|eexists; reflexivity]].
  destruct (Value (Response resp)) as [[|first rest]|];
    try (eexists; split; [reflexivity|eexists; reflexivity]).
  cbn [length Nat.eqb]. change (Nat.ltb 2 (S (length rest))) with (Nat.ltb 1 (length rest)).
  destruct (Nat.ltb 1 (length rest));
    [eexists; split; [reflexivity|eexists; reflexivity]|].
  unfold index, deref, ret, bind. cbn [nth_error].
  destruct (ADGroup.DisplayName first) as [name|];
    [|eexists; split; [reflexivity|eexists; reflexivity]].
  destruct (String.eqb name displayName); cbn [negb];
    eexists; (split; [reflexivity|]); [reflexivity|eexists; reflexivity].
Qed.

(** C5: [GroupGetByDisplayName name] performs the filtered listing and
    returns without panicking; it returns an error when the listing holds no
    group, when it holds more than two, and when the display name of the
    first group is not exactly [name]; it returns a group only when the
    listing holds one or two groups and that group is the first of them,
    with a display name exactly equal to [name]. *)
Theorem GroupGetByDisplayName_strict (displayName : string) (s : State W) :
  forall r w',
    GroupsClient.ListComplete client (displayNameFilter displayName) (world s)
    = (r, w') ->
    exists out,
      GroupGetByDisplayName displayName s
      = Done out (record (EvListComplete (displayNameFilter displayName)) w' s)
      /\ (forall resp,
            r = Ok resp ->
            Value (Response resp) = None \/ Value (Response resp) = Some [] ->
            exists e, out = Err e)
      /\ (forall resp values,
            r = Ok resp -> Value (Response resp) = Some values ->
            2 < length values ->
            exists e, out = Err e)
      /\ (forall resp first rest,
            r = Ok resp -> Value (Response resp) = Some (first :: rest) ->
            ADGroup.DisplayName first <> Some displayName ->
            exists e, out = Err e)
      /\ (forall found,
            out = Ok found ->
            exists resp rest,
              r = Ok resp
              /\ Value (Response resp) = Some (found :: rest)
              /\ (length (found :: rest) = 1 \/ length (found :: rest) = 2)
              /\ ADGroup.DisplayName found = Some displayName).
Proof.
  intros r w' Hcall.
  destruct (GroupGetByDisplayName_run displayName s r w' Hcall)
    as (out & Hrun & Hout).
  exists out. split; [exact Hrun|]. clear Hrun Hcall.
  split; [|split; [|split]].
  - intros resp -> Hzero. destruct Hzero as [Hz|Hz]; rewrite Hz in Hout; exact Hout.
  - intros resp values -> Hvalues Hmany. rewrite Hvalues in Hout.
    destruct values as [|first rest]; [exact Hout|].
    simpl in Hmany.
    destruct (Nat.ltb_spec 1 (length rest)); [exact Hout|lia].
  - intros resp first rest -> Hvalues Hname. rewrite Hvalues in Hout.
    destruct (Nat.ltb 1 (length rest)); [exact Hout|].
    destruct (ADGroup.DisplayName first) as [name|]; [|exact Hout].
    destruct (String.eqb_spec name displayName) as [Heq|_];
      [congruence|exact Hout].
  - intros found ->.
    destruct r as [resp|err]; [|destruct Hout; discriminate].
    destruct (Value (Response resp)) as [[|first rest]|] eqn:Hvalues;
      try (destruct Hout; discriminate).
    destruct (Nat.ltb_spec 1 (length rest)) as [|Hlen];
      [destruct Hout; discriminate|].
    destruct (ADGroup.DisplayName first) as [name|] eqn:Hname;
      [|destruct Hout; discriminate].
    destruct (String.eqb_spec name displayName) as [Heq|_];
      [|destruct Hout; discriminate].
    inversion Hout; subst first name.
    exists resp, rest. repeat split; try assumption.
    simpl. lia.
Qed.

(** ** Listings whose objects carry their identifiers *)

Lemma appendObjectIDs_identifier (v : BasicDirectoryObject)
      (ids : list string) (s : State W) :
  one_variant_at_most v ->
  (recognized v = true -> identifier v <> None) ->
  appendObjectIDs v ids s
  = Done (ids ++ match identifier v with
                 | Some id => [id]
                 | None => []
                 end)%list s.
Proof.
  unfold one_variant_at_most, recognized, identifier, appendObjectIDs.
  intros Hone Hid. run_step.
  destruct (AsUser v) as [[user]|], (AsADGroup v) as [[group name]|],
    (AsServicePrincipal v) as [[servicePrincipal]|];
    simpl in *; try contradiction;
    try (rewrite app_nil_r; reflexivity).
  - destruct user; [reflexivity|]. exfalso. apply Hid; reflexivity.
  - destruct group; [reflexivity|]. exfalso. apply Hid; reflexivity.
  - destruct servicePrincipal; [reflexivity|]. exfalso. apply Hid; reflexivity.
Qed.

(** On a sequence whose pagination never fails, whose objects are each
    recognized by one projection at most and whose recognized objects carry
    an [ObjectID], the listing is the identifiers of the recognized objects
    in the order of the sequence. *)
Lemma DirectoryObjectListToIDs_identifiers
      (objects : list BasicDirectoryObject) (s : State W) :
  Forall one_variant_at_most objects ->
  Forall (fun v => recognized v = true -> identifier v <> None) objects ->
  DirectoryObjectListToIDs (iteratorOf objects) s
  = Done (Ok (identifiers objects)) s.
Proof.
  unfold DirectoryObjectListToIDs. intros Hone Hid.
  change (identifiers objects) with ([] ++ identifiers objects)%list.
  generalize (@nil string) as ids.
  induction objects as [|v objects IH]; intros ids; simpl.
  - rewrite app_nil_r. reflexivity.
  - inversion Hone as [|? ? Hv Hrest]; subst.
    inversion Hid as [|? ? Hvid Hrestid]; subst.
    unfold bind. rewrite (appendObjectIDs_identifier v ids s Hv Hvid).
    rewrite (IH Hrest Hrestid). rewrite <- app_assoc. reflexivity.
Qed.

(** ** Pages whose groups carry their display names *)

Lemma GroupFindByName_range_find (name : string) (groups : list ADGroup.t)
      (s : State W) :
  Forall (fun group => ADGroup.DisplayName group <> None) groups ->
  GroupFindByName_range name groups s = Done (Ok (find (named name) groups)) s.
Proof.
  induction 1 as [|group groups Hgroup _ IH]; simpl.
  - reflexivity.
  - unfold bind, deref, named.
    destruct (ADGroup.DisplayName group) as [displayName|]; [|congruence].
    unfold ret. destruct (String.eqb displayName name); [reflexivity|exact IH].
Qed.

(** On a page whose groups all carry a display name, [GroupFindByName]
    returns the first group, in the order of the page, whose display name
    is exactly the name asked for, and no group when there is none. *)
Lemma GroupFindByName_first_match (name : string) (s : State W) :
  forall resp w',
    GroupsClient.List client (displayNameFilter name) (world s) = (Ok resp, w') ->
    Forall (fun group => ADGroup.DisplayName group <> None) (Values resp) ->
    GroupFindByName name s
    = Done (Ok (find (named name) (Values resp)))
           (record (EvList (displayNameFilter name)) w' s).
Proof.
  intros resp w' Hcall Hnames.
  unfold GroupFindByName, bind, client_List. rewrite Hcall.
  apply GroupFindByName_range_find. exact Hnames.
Qed.

(** * Further properties of the helpers *)

(** ** Every run of the retry loop *)

Lemma loop_outcomes (groupId member : string)
      (properties : GroupAddMemberParameters) :
  forall n i s,
    i + n = S attempts -> n <> 0 ->
    exists errs res s',
      trace s' = (trace s ++ failed_attempts groupId properties errs
                    ++ [EvAddMember groupId properties res])%list
      /\ logs s' = logs s
      /\ ((res = None /\ length errs <= n - 1
           /\ GroupAddMember_loop groupId member properties n i s
              = Done LoopBreak s')
          \/ (exists err,
                res = Some err /\ length errs = n - 1
                /\ GroupAddMember_loop groupId member properties n i s
                   = Done (LoopReturn (Errorf
                       "adding group member %q to Azure AD Group with ID %q: %+v"
                       [ArgStr member; ArgStr groupId; ArgErr err])) s')).
Proof.
  induction n as [|n IH]; intros i s Hi Hn; [congruence|].
  simpl. unfold bind, client_AddMember.
  destruct (GroupsClient.AddMember client groupId properties (world s))
    as [[err|] w1] eqn:Hcall.
  - destruct (Nat.eqb_spec i attempts) as [Hlast|Hmore].
    + exists [], (Some err),
        (record (EvAddMember groupId properties (Some err)) w1 s).
      split; [reflexivity|]. split; [reflexivity|].
      right. exists err. split; [reflexivity|]. split; [|reflexivity].
      unfold attempts in *. simpl. lia.
    + unfold time_Sleep.
      destruct (IH (S i)
                  (record (EvSleep (time_Second * 2))
                     (elapse (time_Second * 2)
                        (world (record (EvAddMember groupId properties (Some err)) w1 s)))
                     (record (EvAddMember groupId properties (Some err)) w1 s)))
        as (errs & res & s' & Htrace & Hlogs & Hout);
        [lia|unfold attempts in *; lia|].
      exists (err :: errs), res, s'.
      split; [rewrite Htrace; simpl; rewrite <- !app_assoc; reflexivity|].
      split; [rewrite Hlogs; reflexivity|].
      destruct Hout as [(Hres & Hlen & Hrun)|(err' & Hres & Hlen & Hrun)].
      * left. split; [exact Hres|]. split; [|exact Hrun].
        simpl. unfold attempts in *. lia.
      * right. exists err'. split; [exact Hres|]. split; [|exact Hrun].
        simpl. unfold attempts in *. lia.
  - exists [], None, (record (EvAddMember groupId properties None) w1 s).
    split; [reflexivity|]. split; [reflexivity|].
    left. split; [reflexivity|]. split; [simpl; lia|reflexivity].
Qed.

(** X1: whatever the client answers, the retry loop of [GroupAddMember]
    ends in one of two ways and never by running out of its condition: it
    breaks on a successful call that comes after at most 10 failed ones, or
    it returns the error of the 11th call, wrapped with the member and the
    group, after 10 failed calls; each failed call but the 11th is followed
    by a pause of two seconds and the loop logs nothing. *)
Theorem GroupAddMember_loop_outcomes (groupId member : string)
        (properties : GroupAddMemberParameters) (s : State W) :
  exists errs res s',
    trace s' = (trace s ++ failed_attempts groupId properties errs
                  ++ [EvAddMember groupId properties res])%list
    /\ logs s' = logs s
    /\ ((res = None /\ length errs <= 10
         /\ GroupAddMember_loop groupId member properties 11 0 s
            = Done LoopBreak s')
        \/ (exists err,
              res = Some err /\ length errs = 10
              /\ GroupAddMember_loop groupId member properties 11 0 s
                 = Done (LoopReturn (Errorf
                     "adding group member %q to Azure AD Group with ID %q: %+v"
                     [ArgStr member; ArgStr groupId; ArgErr err])) s')).
Proof.
  exact (loop_outcomes groupId member properties (S attempts) 0 s
           eq_refl (Nat.neq_succ_0 attempts)).
Qed.

(** ** Every run of [GroupAddMember] *)

Lemma GroupAddMember_unfold (groupId member : string) (s : State W) :
  GroupAddMember groupId member s
  = match GroupAddMember_loop groupId member (memberParameters member)
            (S attempts) 0 (announced groupId member s) with
    | Done (LoopReturn err) s1 => Done (Some err) s1
    | Done _ s1 =>
        poll_verdict (WaitForListAdd member (GroupAllMembers groupId) s1)
    | Panic s1 => Panic s1
    end.
Proof.
  unfold GroupAddMember, bind at 1, log_Printf.
  fold (memberParameters member). fold (announced groupId member s).
  unfold bind at 1.
  destruct (GroupAddMember_loop groupId member (memberParameters member)
              (S attempts) 0 (announced groupId member s))
    as [[|err|] s1|s1]; try reflexivity;
    unfold bind, ret;
    destruct (WaitForListAdd member (GroupAllMembers groupId) s1)
      as [[current|err] s2|s2]; reflexivity.
Qed.

(** X2: an error [GroupAddMember] returns has one of two shapes.  Either it
    is the error of the add, naming the member and the group and wrapping
    the error of the 11th call; then the function has made 11 failed calls
    and 10 pauses and nothing else, so the members were never listed.  Or it
    wraps an error with which the poll for the member ended. *)
Theorem GroupAddMember_errors (groupId member : string) (s s' : State W)
        (e : error) :
  GroupAddMember groupId member s = Done (Some e) s' ->
  (exists errs err,
     e = Errorf "adding group member %q to Azure AD Group with ID %q: %+v"
                [ArgStr member; ArgStr groupId; ArgErr err]
     /\ length errs = 10
     /\ trace s'
        = (trace s
             ++ failed_attempts groupId (memberParameters member) errs
             ++ [EvAddMember groupId (memberParameters member) (Some err)])%list)
  \/ (exists err s0,
        e = Errorf "waiting for group membership: %+v" [ArgErr err]
        /\ WaitForListAdd member (GroupAllMembers groupId) s0 = Done (Err err) s').
Proof.
  rewrite GroupAddMember_unfold.
  destruct (loop_outcomes groupId member (memberParameters member)
              (S attempts) 0 (announced groupId member s)
              eq_refl (Nat.neq_succ_0 attempts))
    as (errs & res & s1 & Htrace & _ & [(_ & _ & Hrun)|(err & Hres & Hlen & Hrun)]);
    rewrite Hrun.
  - intros Hpoll. right.
    destruct (WaitForListAdd member (GroupAllMembers groupId) s1)
      as [[current|err] s2|s2] eqn:Hwait; simpl in Hpoll; try discriminate.
    inversion Hpoll; subst. exists err, s1. split; [reflexivity|exact Hwait].
  - intros Hret. inversion Hret; subst. left.
    exists errs, err. split; [reflexivity|]. split; [exact Hlen|exact Htrace].
Qed.

Lemma GroupAddMember_events (groupId member : string) (s : State W) :
  exists errs res evs,
    trace (final_state (GroupAddMember groupId member s))
    = (trace s
         ++ (failed_attempts groupId (memberParameters member) errs
               ++ [EvAddMember groupId (memberParameters member) res])
         ++ evs)%list
    /\ length errs <= 10
    /\ filter is_AddMember evs = []
    /\ length (filter is_AddMember
                 ((failed_attempts groupId (memberParameters member) errs
                     ++ [EvAddMember groupId (memberParameters member) res])
                    ++ evs))
       = S (length errs)
    /\ URL (memberParameters member)
       = Some ("https://graph.windows.net/" ++ GroupsClient.TenantID client
                 ++ "/directoryObjects/" ++ member).
Proof.
  rewrite GroupAddMember_unfold.
  destruct (loop_outcomes groupId member (memberParameters member)
              (S attempts) 0 (announced groupId member s)
              eq_refl (Nat.neq_succ_0 attempts))
    as (errs & res & s1 & Htrace & _ & Hout).
  simpl in Htrace.
  assert (Hcount : forall evs,
             filter is_AddMember evs = [] ->
             length (filter is_AddMember
                       ((failed_attempts groupId (memberParameters member) errs
                           ++ [EvAddMember groupId (memberParameters member) res])
                          ++ evs))
             = S (length errs)).
  { intros evs Hnone. rewrite filter_app, Hnone, app_nil_r.
    apply failed_attempts_count. }
  destruct Hout as [(_ & Hlen & Hrun)|(err & _ & Hlen & Hrun)];
    simpl in Hlen; rewrite Hrun.
  - rewrite poll_verdict_final.
    destruct (WaitForListAdd_poll_trace groupId member poll_attempts s1)
      as (evs & Hpoll & Hnone).
    exists errs, res, evs. unfold WaitForListAdd.
    split; [rewrite Hpoll, Htrace, <- !app_assoc; reflexivity|].
    split; [exact Hlen|]. split; [exact Hnone|].
    split; [apply Hcount; exact Hnone|reflexivity].
  - exists errs, res, []. simpl final_state.
    split; [rewrite Htrace, !app_nil_r; reflexivity|].
    split; [lia|]. split; [reflexivity|].
    split; [apply Hcount; reflexivity|reflexivity].
Qed.

(** X3: whatever the client answers and however the call ends,
    [GroupAddMember g m] issues at least one and at most 11 [AddMember]
    calls, all of them for the group [g] with the URL of the member [m]
    under the tenant of the client; they come first, separated by pauses of
    two seconds, and what the function does afterwards holds no further
    [AddMember] call. *)
Theorem GroupAddMember_calls (groupId member : string) (s : State W) :
  exists errs res evs,
    trace (final_state (GroupAddMember groupId member s))
    = (trace s
         ++ (failed_attempts groupId (memberParameters member) errs
               ++ [EvAddMember groupId (memberParameters member) res])
         ++ evs)%list
    /\ length errs <= 10
    /\ filter is_AddMember evs = []
    /\ length (filter is_AddMember
                 ((failed_attempts groupId (memberParameters member) errs
                     ++ [EvAddMember groupId (memberParameters member) res])
                    ++ evs))
       = S (length errs)
    /\ URL (memberParameters member)
       = Some ("https://graph.windows.net/" ++ GroupsClient.TenantID client
                 ++ "/directoryObjects/" ++ member).
Proof. exact (GroupAddMember_events groupId member s). Qed.

(** ** Every run of [GroupAddMembers] *)

(** X4: adding the members of a list made of two parts is adding those of
    the first part and then, when that returned [nil], those of the second
    part from the state reached; an error or a panic in the first part is
    the outcome of the whole. *)
Theorem GroupAddMembers_app (groupId : string) (members later : list string) :
  forall s,
    GroupAddMembers groupId (members ++ later) s
    = match GroupAddMembers groupId members s with
      | Done None s1 => GroupAddMembers groupId later s1
      | stopped => stopped
      end.
Proof.
  induction members as [|member members IH]; intros s; simpl.
  - reflexivity.
  - unfold bind.
    destruct (GroupAddMember groupId member s) as [[err|] s1|s1];
      [reflexivity|apply IH|reflexivity].
Qed.

(** X5: an error [GroupAddMembers] returns always comes from one element of
    the list: [GroupAddMember] succeeded on every element before it, failed
    on it, and the error returned names the group and wraps that failure; the
    state is the one the failed call left. *)
Theorem GroupAddMembers_failure (groupId : string) (members : list string) :
  forall s s' e,
    GroupAddMembers groupId members s = Done (Some e) s' ->
    exists before member later s1 err,
      members = (before ++ member :: later)%list
      /\ members_added groupId before s s1
      /\ GroupAddMember groupId member s1 = Done (Some err) s'
      /\ e = Errorf "while adding members to Azure AD Group with ID %q: %+v"
                    [ArgStr groupId; ArgErr err].
Proof.
  induction members as [|member members IH]; intros s s' e Hrun; simpl in Hrun.
  - discriminate.
  - unfold bind in Hrun.
    destruct (GroupAddMember groupId member s) as [[err|] s1|s1] eqn:Hone;
      try discriminate.
    + inversion Hrun; subst.
      exists [], member, members, s, err.
      repeat split; [constructor|exact Hone].
    + destruct (IH s1 s' e Hrun)
        as (before & m & later & s2 & err & Hsplit & Hbefore & Hfail & He).
      exists (member :: before), m, later, s2, err.
      split; [rewrite Hsplit; reflexivity|].
      split; [econstructor; eassumption|].
      split; assumption.
Qed.

(** X6: whatever the client answers and however the call ends,
    [GroupAddMembers] issues at most 11 [AddMember] calls for each member of
    the list. *)
Theorem GroupAddMembers_calls_bound (groupId : string) (members : list string) :
  forall s,
    exists evs,
      trace (final_state (GroupAddMembers groupId members s))
      = (trace s ++ evs)%list
      /\ length (filter is_AddMember evs) <= 11 * length members.
Proof.
  induction members as [|member members IH]; intros s.
  - exists []. simpl. rewrite app_nil_r. split; [reflexivity|lia].
  - simpl GroupAddMembers. unfold bind.
    destruct (GroupAddMember_events groupId member s)
      as (errs & res & evs & Htrace & Hlen & _ & Hcount & _).
    destruct (GroupAddMember groupId member s) as [[err|] s1|s1];
      simpl in Htrace.
    + eexists. split; [exact Htrace|]. rewrite Hcount. simpl length. lia.
    + destruct (IH s1) as (evs' & Htrace' & Hbound).
      eexists. split.
      * rewrite Htrace', Htrace, <- app_assoc. reflexivity.
      * rewrite filter_app, length_app, Hcount. simpl length. lia.
    + eexists. split; [exact Htrace|]. rewrite Hcount. simpl length. lia.
Qed.

(** ** Every run of [GroupAddOwners] *)

Lemma owners_added_run (groupId : string) (owners : list string)
      (s s' : State W) :
  owners_added groupId owners s s' ->
  GroupAddOwners groupId owners s = Done None s'.
Proof.
  induction 1 as [s|owner owners s s1 s' Hone _ IH]; simpl.
  - reflexivity.
  - unfold bind. rewrite Hone. exact IH.
Qed.

Lemma run_owners_added (groupId : string) (owners : list string) :
  forall s s',
    GroupAddOwners groupId owners s = Done None s' ->
    owners_added groupId owners s s'.
Proof.
  induction owners as [|owner owners IH]; intros s s' Hrun; simpl in Hrun.
  - inversion Hrun. constructor.
  - unfold bind in Hrun.
    destruct (GroupAddOwner groupId owner s) as [[err|] s1|s1] eqn:Hone;
      try discriminate.
    econstructor; [exact Hone|]. apply IH. exact Hrun.
Qed.

(** X7: [GroupAddOwners g os] returns [nil] exactly when [GroupAddOwner g]
    applied to the elements of [os] one after the other, in the order of the
    list, succeeds on each; when it fails on an element after succeeding on
    the elements before it, [GroupAddOwners] returns the error that names
    [g] and wraps that failure, in the very state the failed call left:
    nothing is attempted for the later elements and nothing is undone. *)
Theorem GroupAddOwners_sequential (groupId : string) :
  (forall owners s s',
     owners_added groupId owners s s'
     <-> GroupAddOwners groupId owners s = Done None s')
  /\
  (forall before owner later s s1 err s2,
     owners_added groupId before s s1 ->
     GroupAddOwner groupId owner s1 = Done (Some err) s2 ->
     GroupAddOwners groupId (before ++ owner :: later) s
     = Done (Some (Errorf
         "while adding owners to Azure AD Group with ID %q: %+v"
         [ArgStr groupId; ArgErr err])) s2).
Proof.
  split.
  - intros owners s s'. split.
    + apply owners_added_run.
    + apply run_owners_added.
  - intros before owner later s s1 err s2 Hbefore.
    induction Hbefore as [s|o os s sm s1 Hone _ IH]; intros Hfail; simpl.
    + unfold bind. rewrite Hfail. reflexivity.
    + unfold bind. rewrite Hone. apply IH. exact Hfail.
Qed.

(** X8: whatever the client answers, [GroupAddOwners g os] never panics and
    issues one [AddOwner] call, with the URL of the owner, for each of the
    first owners of the list, in the order of the list, and nothing else.
    Either every call succeeds, there is one call for each owner and the
    result is [nil]; or the calls stop at the first one that fails, after
    [k] successful ones, and the result is the error of that call wrapped
    twice, with the owner and the group and then with the group. *)
Theorem GroupAddOwners_calls (groupId : string) (owners : list string) :
  forall s,
    exists k s',
      (k = length owners
       /\ GroupAddOwners groupId owners s = Done None s'
       /\ trace s' = (trace s ++ owner_events groupId owners (repeat None k))%list)
      \/ (exists owner err,
            nth_error owners k = Some owner
            /\ GroupAddOwners groupId owners s
               = Done (Some (owner_refused groupId owner err)) s'
            /\ trace s'
               = (trace s ++ owner_events groupId owners
                               (repeat None k ++ [Some err]))%list).
Proof.
  induction owners as [|owner owners IH]; intros s.
  - exists 0, s. left. simpl. rewrite app_nil_r. repeat split.
  - simpl GroupAddOwners. unfold bind.
    destruct (GroupsClient.AddOwner client groupId (ownerParameters owner)
                (world s)) as [res w1] eqn:Hcall.
    rewrite (GroupAddOwner_run groupId owner s res w1 Hcall).
    destruct res as [err|].
    + exists 0. eexists. right. exists owner, err.
      split; [reflexivity|]. split; [reflexivity|].
      reflexivity.
    + match goal with |- context [GroupAddOwners groupId owners ?st] =>
        destruct (IH st) as (k & s' & Hcase)
      end.
      exists (S k), s'.
      destruct Hcase as [(Hk & Hrun & Htrace)|(o & err & Hnth & Hrun & Htrace)].
      * left. split; [simpl; congruence|]. split; [exact Hrun|].
        rewrite Htrace. simpl. rewrite <- app_assoc. reflexivity.
      * right. exists o, err. split; [exact Hnth|]. split; [exact Hrun|].
        rewrite Htrace. simpl. rewrite <- app_assoc. reflexivity.
Qed.

(** ** What [DirectoryObjectListToIDs] dereferences *)

Lemma present_or_absent {A} (l : list (option A)) :
  (exists xs, l = map Some xs) \/ In None l.
Proof.
  induction l as [|[x|] l [[xs Hxs]|Habsent]].
  - left. exists []. reflexivity.
  - left. exists (x :: xs). rewrite Hxs. reflexivity.
  - right. right. exact Habsent.
  - right. left. reflexivity.
  - right. left. reflexivity.
Qed.

Lemma map_Some_absent {A} (xs : list A) : ~ In None (map Some xs).
Proof.
  induction xs as [|x xs IH]; simpl; [tauto|].
  intros [Hx|Hxs]; [discriminate|exact (IH Hxs)].
Qed.

Lemma appendObjectIDs_present (v : BasicDirectoryObject)
      (ids new : list string) (s : State W) :
  projected v = map Some new ->
  appendObjectIDs v ids s = Done (ids ++ new)%list s.
Proof.
  unfold projected, appendObjectIDs, append. run_step.
  destruct (AsUser v) as [[[user|]]|], (AsADGroup v) as [[[group|] name]|],
    (AsServicePrincipal v) as [[[servicePrincipal|]]|];
    simpl; intros Hnew;
    repeat (destruct new as [|? new]; try discriminate);
    inversion Hnew; subst;
    rewrite <- ?app_assoc, ?app_nil_r; reflexivity.
Qed.

Lemma appendObjectIDs_absent (v : BasicDirectoryObject)
      (ids : list string) (s : State W) :
  In None (projected v) ->
  appendObjectIDs v ids s = Panic s.
Proof.
  unfold projected, appendObjectIDs, append. run_step.
  destruct (AsUser v) as [[[user|]]|], (AsADGroup v) as [[[group|] name]|],
    (AsServicePrincipal v) as [[[servicePrincipal|]]|];
    simpl; intros Habsent; try reflexivity;
    repeat (destruct Habsent as [Habsent|Habsent]; try discriminate);
    contradiction.
Qed.

Lemma DirectoryObjectListToIDs_from_present
      (objects : list BasicDirectoryObject) :
  forall new ids s,
    flat_map projected objects = map Some new ->
    DirectoryObjectListToIDs_from (iteratorOf objects) ids s
    = Done (Ok (ids ++ new)%list) s.
Proof.
  induction objects as [|v objects IH]; intros new ids s Hnew; simpl in *.
  - destruct new; [|discriminate]. rewrite app_nil_r. reflexivity.
  - symmetry in Hnew. apply map_eq_app in Hnew.
    destruct Hnew as (here & rest & -> & Hhere & Hrest).
    unfold bind.
    rewrite (appendObjectIDs_present v ids here s (eq_sym Hhere)).
    rewrite (IH rest (ids ++ here)%list s (eq_sym Hrest)).
    rewrite app_assoc. reflexivity.
Qed.

Lemma DirectoryObjectListToIDs_from_absent
      (objects : list BasicDirectoryObject) :
  forall ids s,
    In None (flat_map projected objects) ->
    DirectoryObjectListToIDs_from (iteratorOf objects) ids s = Panic s.
Proof.
  induction objects as [|v objects IH]; intros ids s Habsent; simpl in *.
  - contradiction.
  - unfold bind.
    destruct (present_or_absent (projected v)) as [[here Hhere]|Hv].
    + rewrite (appendObjectIDs_present v ids here s Hhere).
      apply IH. apply in_app_or in Habsent.
      destruct Habsent as [Hv|Hrest]; [|exact Hrest].
      rewrite Hhere in Hv. destruct (map_Some_absent here Hv).
    + rewrite (appendObjectIDs_absent v ids s Hv). reflexivity.
Qed.

(** X9: on a sequence whose pagination never fails,
    [DirectoryObjectListToIDs] returns the list [ids] exactly when the
    [ObjectID] fields of the projections that recognize the objects, taken
    object after object and, within an object, in the order user, group,
    service principal, are all present and are [ids]: one identifier for
    each projection that recognizes an object, so two for an object that two
    projections recognize, and none for an object that none recognizes. *)
Theorem DirectoryObjectListToIDs_returns
        (objects : list BasicDirectoryObject) (s : State W)
        (ids : list string) :
  returned (DirectoryObjectListToIDs (iteratorOf objects) s) = Some (Ok ids)
  <-> flat_map projected objects = map Some ids.
Proof.
  unfold DirectoryObjectListToIDs. split.
  - destruct (present_or_absent (flat_map projected objects))
      as [[new Hnew]|Habsent].
    + rewrite (DirectoryObjectListToIDs_from_present objects new [] s Hnew).
      simpl. intros Hids. inversion Hids; subst. exact Hnew.
    + rewrite (DirectoryObjectListToIDs_from_absent objects [] s Habsent).
      discriminate.
  - intros Hids.
    rewrite (DirectoryObjectListToIDs_from_present objects ids [] s Hids).
    reflexivity.
Qed.

(** X10: on a sequence whose pagination never fails,
    [DirectoryObjectListToIDs] never returns an error, and it panics exactly
    when some projection that recognizes an object of the sequence carries
    no [ObjectID]. *)
Theorem DirectoryObjectListToIDs_panics
        (objects : list BasicDirectoryObject) (s : State W) :
  (returned (DirectoryObjectListToIDs (iteratorOf objects) s) = None
   <-> In None (flat_map projected objects))
  /\ (forall e,
        returned (DirectoryObjectListToIDs (iteratorOf objects) s)
        <> Some (Err e)).
Proof.
  unfold DirectoryObjectListToIDs.
  destruct (present_or_absent (flat_map projected objects))
    as [[new Hnew]|Habsent].
  - rewrite (DirectoryObjectListToIDs_from_present objects new [] s Hnew).
    simpl. split; [split|]; try discriminate.
    rewrite Hnew. intros Habsent. destruct (map_Some_absent new Habsent).
  - rewrite (DirectoryObjectListToIDs_from_absent objects [] s Habsent).
    simpl. split; [split; auto|]. discriminate.
Qed.

Lemma DirectoryObjectListToIDs_from_failing_present
      (objects : list BasicDirectoryObject) (v : BasicDirectoryObject)
      (err : error) :
  forall new ids s,
    flat_map projected (objects ++ [v]) = map Some new ->
    DirectoryObjectListToIDs_from (iteratorFailing objects v err) ids s
    = Done (Err (Errorf "during pagination of directory objects: %+v"
                        [ArgErr err])) s.
Proof.
  induction objects as [|o objects IH]; intros new ids s Hnew; simpl in *.
  - rewrite app_nil_r in Hnew. unfold bind.
    rewrite (appendObjectIDs_present v ids new s Hnew). reflexivity.
  - symmetry in Hnew. apply map_eq_app in Hnew.
    destruct Hnew as (here & rest & -> & Hhere & Hrest).
    unfold bind.
    rewrite (appendObjectIDs_present o ids here s (eq_sym Hhere)).
    exact (IH rest (ids ++ here)%list s (eq_sym Hrest)).
Qed.

Lemma DirectoryObjectListToIDs_from_failing_absent
      (objects : list BasicDirectoryObject) (v : BasicDirectoryObject)
      (err : error) :
  forall ids s,
    In None (flat_map projected (objects ++ [v])) ->
    DirectoryObjectListToIDs_from (iteratorFailing objects v err) ids s
    = Panic s.
Proof.
  induction objects as [|o objects IH]; intros ids s Habsent; simpl in *.
  - rewrite app_nil_r in Habsent. unfold bind.
    rewrite (appendObjectIDs_absent v ids s Habsent). reflexivity.
  - unfold bind.
    destruct (present_or_absent (projected o)) as [[here Hhere]|Ho].
    + rewrite (appendObjectIDs_present o ids here s Hhere).
      apply IH. apply in_app_or in Habsent.
      destruct Habsent as [Ho|Hrest]; [|exact Hrest].
      rewrite Hhere in Ho. destruct (map_Some_absent here Ho).
    + rewrite (appendObjectIDs_absent o ids s Ho). reflexivity.
Qed.

(** X11: on a sequence whose pagination fails when asked to advance from an
    object, [DirectoryObjectListToIDs] never returns a list: the
    identifiers gathered so far are dropped.  It returns the error of the
    pagination, wrapped, exactly when every [ObjectID] it dereferences up to
    and including that object is present; otherwise it panics before it
    reaches the failure. *)
Theorem DirectoryObjectListToIDs_pagination_failure
        (objects : list BasicDirectoryObject) (v : BasicDirectoryObject)
        (err : error) (s : State W) :
  (forall ids,
     returned (DirectoryObjectListToIDs (iteratorFailing objects v err) s)
     <> Some (Ok ids))
  /\ (forall e,
        returned (DirectoryObjectListToIDs (iteratorFailing objects v err) s)
        = Some (Err e)
        <-> e = Errorf "during pagination of directory objects: %+v"
                       [ArgErr err]
            /\ ~ In None (flat_map projected (objects ++ [v]))).
Proof.
  unfold DirectoryObjectListToIDs.
  destruct (present_or_absent (flat_map projected (objects ++ [v])))
    as [[new Hnew]|Habsent].
  - rewrite (DirectoryObjectListToIDs_from_failing_present
               objects v err new [] s Hnew).
    simpl. split; [discriminate|]. intros e. split.
    + intros He. inversion He; subst. split; [reflexivity|].
      rewrite Hnew. apply map_Some_absent.
    + intros [-> _]. reflexivity.
  - rewrite (DirectoryObjectListToIDs_from_failing_absent
               objects v err [] s Habsent).
    simpl. split; [discriminate|]. intros e. split.
    + discriminate.
    + intros [_ Hpresent]. destruct (Hpresent Habsent).
Qed.

(** ** What the listings of members and owners report *)



(** ** What [GroupFindByName] examines *)

Lemma GroupFindByName_range_found (name : string) (before : list ADGroup.t)
      (found : ADGroup.t) (later : list ADGroup.t) (s : State W) :
  Forall (differently_named name) before ->
  ADGroup.DisplayName found = Some name ->
  GroupFindByName_range name (before ++ found :: later) s
  = Done (Ok (Some found)) s.
Proof.
  intros Hbefore Hfound.
  induction Hbefore as [|group before (displayName & Hname & Hother) _ IH];
    simpl; unfold bind, deref, ret.
  - rewrite Hfound, String.eqb_refl. reflexivity.
  - rewrite Hname.
    destruct (String.eqb_spec displayName name); [contradiction|exact IH].
Qed.

Lemma GroupFindByName_range_none (name : string) (groups : list ADGroup.t)
      (s : State W) :
  Forall (differently_named name) groups ->
  GroupFindByName_range name groups s = Done (Ok None) s.
Proof.
  induction 1 as [|group groups (displayName & Hname & Hother) _ IH];
    simpl; unfold bind, deref, ret.
  - reflexivity.
  - rewrite Hname.
    destruct (String.eqb_spec displayName name); [contradiction|exact IH].
Qed.

Lemma GroupFindByName_range_nameless (name : string) (before : list ADGroup.t)
      (nameless : ADGroup.t) (later : list ADGroup.t) (s : State W) :
  Forall (differently_named name) before ->
  ADGroup.DisplayName nameless = None ->
  GroupFindByName_range name (before ++ nameless :: later) s = Panic s.
Proof.
  intros Hbefore Hnameless.
  induction Hbefore as [|group before (displayName & Hname & Hother) _ IH];
    simpl; unfold bind, deref, ret, panic.
  - rewrite Hnameless. reflexivity.
  - rewrite Hname.
    destruct (String.eqb_spec displayName name); [contradiction|exact IH].
Qed.

(** A page either holds only groups with another name, or has a first group
    that bears the name or no name at all. *)
Lemma page_cases (name : string) (groups : list ADGroup.t) :
  Forall (differently_named name) groups
  \/ exists before group later,
      groups = (before ++ group :: later)%list
      /\ Forall (differently_named name) before
      /\ (ADGroup.DisplayName group = Some name
          \/ ADGroup.DisplayName group = None).
Proof.
  induction groups as [|group groups IH].
  - left. constructor.
  - destruct (ADGroup.DisplayName group) as [displayName|] eqn:Hname.
    + destruct (String.eqb_spec displayName name) as [Heq|Hother].
      * right. exists [], group, groups. subst displayName.
        split; [reflexivity|]. split; [constructor|left; exact Hname].
      * assert (Hgroup : differently_named name group)
          by (exists displayName; split; assumption).
        destruct IH as [Hall|(before & g & later & Hsplit & Hbefore & Hg)].
        -- left. constructor; assumption.
        -- right. exists (group :: before), g, later.
           split; [rewrite Hsplit; reflexivity|].
           split; [constructor; assumption|exact Hg].
    + right. exists [], group, groups.
      split; [reflexivity|]. split; [constructor|right; exact Hname].
Qed.

Lemma GroupFindByName_page (name : string) (s : State W)
      (resp : GroupListResultPage) (w' : W) :
  GroupsClient.List client (displayNameFilter name) (world s) = (Ok resp, w') ->
  GroupFindByName name s
  = GroupFindByName_range name (Values resp)
      (record (EvList (displayNameFilter name)) w' s).
Proof.
  intros Hcall. unfold GroupFindByName, bind, client_List.
  rewrite Hcall. reflexivity.
Qed.

(** X14: when the listing returns a page, [GroupFindByName name] returns
    the group [g] exactly when [g] stands on the page with the display name
    [name] and every group before it carries a display name that is not
    [name]: the groups after the first match are not examined, whatever they
    hold. *)
Theorem GroupFindByName_found (name : string) (s : State W)
        (resp : GroupListResultPage) (w' : W) (found : ADGroup.t) :
  GroupsClient.List client (displayNameFilter name) (world s) = (Ok resp, w') ->
  returned (GroupFindByName name s) = Some (Ok (Some found))
  <-> exists before later,
      Values resp = (before ++ found :: later)%list
      /\ Forall (differently_named name) before
      /\ ADGroup.DisplayName found = Some name.
Proof.
  intros Hcall. rewrite (GroupFindByName_page name s resp w' Hcall). split.
  - destruct (page_cases name (Values resp))
      as [Hall|(before & g & later & Hsplit & Hbefore & [Hg|Hg])].
    + rewrite (GroupFindByName_range_none name _ _ Hall). discriminate.
    + rewrite Hsplit, (GroupFindByName_range_found name _ _ _ _ Hbefore Hg).
      simpl. intros Hfound. inversion Hfound; subst g.
      exists before, later. repeat split; assumption.
    + rewrite Hsplit, (GroupFindByName_range_nameless name _ _ _ _ Hbefore Hg).
      discriminate.
  - intros (before & later & Hsplit & Hbefore & Hfound).
    rewrite Hsplit, (GroupFindByName_range_found name _ _ _ _ Hbefore Hfound).
    reflexivity.
Qed.

(** X15: when the listing returns a page, [GroupFindByName name] returns no
    group exactly when every group of the page carries a display name that
    is not [name], and it panics exactly when a group without display name
    stands on the page with, before it, only groups that carry a display
    name that is not [name]. *)
Theorem GroupFindByName_none_or_panic (name : string) (s : State W)
        (resp : GroupListResultPage) (w' : W) :
  GroupsClient.List client (displayNameFilter name) (world s) = (Ok resp, w') ->
  (returned (GroupFindByName name s) = Some (Ok None)
   <-> Forall (differently_named name) (Values resp))
  /\ (returned (GroupFindByName name s) = None
      <-> exists before nameless later,
          Values resp = (before ++ nameless :: later)%list
          /\ Forall (differently_named name) before
          /\ ADGroup.DisplayName nameless = None).
Proof.
  intros Hcall. rewrite (GroupFindByName_page name s resp w' Hcall).
  split; split.
  - destruct (page_cases name (Values resp))
      as [Hall|(before & g & later & Hsplit & Hbefore & [Hg|Hg])].
    + intros _. exact Hall.
    + rewrite Hsplit, (GroupFindByName_range_found name _ _ _ _ Hbefore Hg).
      discriminate.
    + rewrite Hsplit, (GroupFindByName_range_nameless name _ _ _ _ Hbefore Hg).
      discriminate.
  - intros Hall. rewrite (GroupFindByName_range_none name _ _ Hall).
    reflexivity.
  - destruct (page_cases name (Values resp))
      as [Hall|(before & g & later & Hsplit & Hbefore & [Hg|Hg])].
    + rewrite (GroupFindByName_range_none name _ _ Hall). discriminate.
    + rewrite Hsplit, (GroupFindByName_range_found name _ _ _ _ Hbefore Hg).
      discriminate.
    + intros _. exists before, g, later. repeat split; assumption.
  - intros (before & g & later & Hsplit & Hbefore & Hg).
    rewrite Hsplit, (GroupFindByName_range_nameless name _ _ _ _ Hbefore Hg).
    reflexivity.
Qed.

(** ** The two lookups side by side *)

(** X16: a group that [GroupGetByDisplayName] returns for a listing is the
    group that [GroupFindByName] returns for a page with the same groups:
    the strict lookup only ever accepts the first exact match of the lenient
    one. *)
Theorem lookups_agree (displayName : string) (s s2 : State W)
        (resp : GroupListResultIterator) (page : GroupListResultPage)
        (w w2 : W) (found : ADGroup.t) :
  GroupsClient.ListComplete client (displayNameFilter displayName) (world s)
  = (Ok resp, w) ->
  GroupsClient.List client (displayNameFilter displayName) (world s2)
  = (Ok page, w2) ->
  Value (Response resp) = Some (Values page) ->
  returned (GroupGetByDisplayName displayName s) = Some (Ok found) ->
  returned (GroupFindByName displayName s2) = Some (Ok (Some found)).
Proof.
  intros Hstrict Hlenient Hsame Hfound.
  destruct (GroupGetByDisplayName_run displayName s _ _ Hstrict)
    as (out & Hrun & Hout).
  rewrite Hrun in Hfound. simpl in Hfound. inversion Hfound; subst out.
  rewrite Hsame in Hout.
  rewrite (GroupFindByName_page displayName s2 page w2 Hlenient).
  destruct (Values page) as [|first rest]; [destruct Hout; discriminate|].
  destruct (Nat.ltb 1 (length rest)); [destruct Hout; discriminate|].
  destruct (ADGroup.DisplayName first) as [name|] eqn:Hname;
    [|destruct Hout; discriminate].
  destruct (String.eqb_spec name displayName) as [Heq|_];
    [|destruct Hout; discriminate].
  assert (Hfirst : found = first) by congruence. subst found name.
  rewrite (GroupFindByName_range_found displayName [] first rest _
             (Forall_nil _) Hname).
  reflexivity.
Qed.

(** ** Checking that a name is free *)

(** X17: [GroupCheckNameAvailability name] passes an error of
    [GroupFindByName] on as it is, without wrapping it again.  When the
    listing returns a page on which every group carries a display name that
    is not [name], it returns [nil].  When the first group of the page that
    bears [name] comes after such groups only, it returns what [fmt.Warnf]
    makes of [name] and the [ObjectID] of that group if the group has one,
    and panics if the group has none. *)
Theorem GroupCheckNameAvailability_outcomes (name : string) (s : State W) :
  (forall e s',
     GroupFindByName name s = Done (Err e) s' ->
     GroupCheckNameAvailability name s = Done (Some e) s')
  /\ (forall resp w',
        GroupsClient.List client (displayNameFilter name) (world s)
        = (Ok resp, w') ->
        (Forall (differently_named name) (Values resp) ->
         GroupCheckNameAvailability name s
         = Done None (record (EvList (displayNameFilter name)) w' s))
        /\ (forall before existingGroup later,
              Values resp = (before ++ existingGroup :: later)%list ->
              Forall (differently_named name) before ->
              ADGroup.DisplayName existingGroup = Some name ->
              GroupCheckNameAvailability name s
              = match ADGroup.ObjectID existingGroup with
                | Some objectID =>
                    Done (fmt_Warnf
                      "existing Azure Active Directory Group with name %q (ObjID: %q) was found and `prevent_duplicate_names` was specified"
                      [ArgStr name; ArgStr objectID])
                      (record (EvList (displayNameFilter name)) w' s)
                | None =>
                    Panic (record (EvList (displayNameFilter name)) w' s)
                end)).
Proof.
  split.
  - intros e s' Hfind. unfold GroupCheckNameAvailability, bind.
    rewrite Hfind. reflexivity.
  - intros resp w' Hcall. split.
    + intros Hall. unfold GroupCheckNameAvailability, bind.
      rewrite (GroupFindByName_page name s resp w' Hcall).
      rewrite (GroupFindByName_range_none name _ _ Hall). reflexivity.
    + intros before existingGroup later Hsplit Hbefore Hfound.
      unfold GroupCheckNameAvailability, bind.
      rewrite (GroupFindByName_page name s resp w' Hcall), Hsplit.
      rewrite (GroupFindByName_range_found name _ _ _ _ Hbefore Hfound).
      unfold deref.
      destruct (ADGroup.ObjectID existingGroup); reflexivity.
Qed.

End Graph.

(** ** The second group of a strict lookup *)

(** C10: when the filtered listing holds exactly two groups, the value
    [GroupGetByDisplayName] returns is the same whatever the second group
    is; it is the first group whenever the display name of the first group
    is exactly the name asked for, and a group that is returned is the first
    one, never the second. *)
Theorem GroupGetByDisplayName_first_of_two
        (W : Type) (client client' : GroupsClient.t W) (displayName : string)
        (s s' : State W) (first second second' : ADGroup.t)
        (resp resp' : GroupListResultIterator) (w w' : W) :
  GroupsClient.ListComplete client (displayNameFilter displayName) (world s)
  = (Ok resp, w) ->
  Value (Response resp) = Some [first; second] ->
  GroupsClient.ListComplete client' (displayNameFilter displayName) (world s')
  = (Ok resp', w') ->
  Value (Response resp') = Some [first; second'] ->
  returned (GroupGetByDisplayName W client displayName s)
  = returned (GroupGetByDisplayName W client' displayName s')
  /\ (ADGroup.DisplayName first = Some displayName ->
      returned (GroupGetByDisplayName W client displayName s) = Some (Ok first))
  /\ (forall found,
        returned (GroupGetByDisplayName W client displayName s) = Some (Ok found) ->
        found = first /\ ADGroup.DisplayName first = Some displayName).
Proof.
  intros Hcall Hvalues Hcall' Hvalues'.
  unfold GroupGetByDisplayName, bind, client_ListComplete.
  rewrite Hcall, Hcall', Hvalues, Hvalues'. simpl.
  unfold ret.
  destruct (ADGroup.DisplayName first) as [name|]; simpl.
  - destruct (String.eqb_spec name displayName) as [Heq|Hneq]; simpl.
    + subst name. split; [reflexivity|]. split.
      * intros _. reflexivity.
      * intros g Hg. inversion Hg. split; reflexivity.
    + split; [reflexivity|]. split.
      * intros Hname. congruence.
      * intros g Hg. discriminate.
  - split; [reflexivity|]. split.
    + intros Hname. discriminate.
    + intros g Hg. discriminate.
Qed.

(** ** The composite identifier round trip *)

Lemma split_on_whole (sep : ascii) (s : string) :
  occurs sep s = false -> split_on sep s = [s].
Proof.
  induction s as [|c s IH]; simpl; intros Hfree; [reflexivity|].
  apply orb_false_iff in Hfree. destruct Hfree as [Hc Hs].
  rewrite Hc, (IH Hs). reflexivity.
Qed.

Lemma split_on_part (sep : ascii) (part rest : string) :
  occurs sep part = false ->
  split_on sep (part ++ String sep rest) = part :: split_on sep rest.
Proof.
  induction part as [|c part IH]; simpl; intros Hfree.
  - rewrite Ascii.eqb_refl. reflexivity.
  - apply orb_false_iff in Hfree. destruct Hfree as [Hc Hpart].
    rewrite Hc, (IH Hpart). reflexivity.
Qed.

Lemma ParseObjectSubResourceId_String (sep : ascii)
      (objectId typeId subId : string) :
  occurs sep typeId = false ->
  valid_identifier sep objectId ->
  valid_identifier sep subId ->
  ParseObjectSubResourceId sep
    (ObjectSubResourceId_String sep
       (ObjectSubResourceIdFrom objectId typeId subId)) typeId
  = Ok (ObjectSubResourceIdFrom objectId typeId subId).
Proof.
  intros Htype [Hobject Hofree] [Hsub Hsfree].
  unfold ParseObjectSubResourceId, ObjectSubResourceId_String. simpl.
  rewrite (split_on_part sep objectId _ Hofree).
  rewrite (split_on_part sep typeId _ Htype).
  rewrite (split_on_whole sep subId Hsfree).
  rewrite String.eqb_refl. simpl.
  destruct (String.eqb_spec objectId ""); [contradiction|].
  destruct (String.eqb_spec subId ""); [contradiction|].
  reflexivity.
Qed.

(** C3: for a separator that does not occur in the tag [member], and for
    every group id and member id that are valid identifiers (non-empty and
    free of the separator), parsing the string form of
    [GroupMemberIdFrom groupId memberId] succeeds and gives back the same
    composite identifier: its [GroupId] is [groupId] and its [MemberId] is
    [memberId]. *)
Theorem ParseGroupMemberId_roundtrip (sep : ascii) (groupId memberId : string) :
  occurs sep "member" = false ->
  valid_identifier sep groupId ->
  valid_identifier sep memberId ->
  exists id,
    ParseGroupMemberId sep
      (GroupMemberId_String sep (GroupMemberIdFrom groupId memberId)) = Ok id
    /\ GroupId id = groupId
    /\ MemberId id = memberId
    /\ id = GroupMemberIdFrom groupId memberId.
Proof.
  intros Htag Hgroup Hmember.
  exists (GroupMemberIdFrom groupId memberId).
  unfold ParseGroupMemberId, GroupMemberId_String, GroupMemberIdFrom. simpl.
  rewrite (ParseObjectSubResourceId_String sep groupId "member" memberId
             Htag Hgroup Hmember).
  repeat split.
Qed.

(** * Runs on concrete directories *)

Lemma GroupAddMember_retries_witness :
  always_fails nat refusingClient
  /\ (exists errs err s',
        GroupAddMember nat refusingClient still 3 1 "g" "m" (initial 0)
        = Done (Some (Errorf
            "adding group member %q to Azure AD Group with ID %q: %+v"
            [ArgStr "m"; ArgStr "g"; ArgErr err])) s'
        /\ trace s'
           = (trace (initial 0)
                ++ failed_attempts "g" (memberParameters nat refusingClient "m") errs
                ++ [EvAddMember "g" (memberParameters nat refusingClient "m")
                                (Some err)])%list
        /\ length (filter is_AddMember
                     (failed_attempts "g" (memberParameters nat refusingClient "m") errs
                        ++ [EvAddMember "g" (memberParameters nat refusingClient "m")
                                        (Some err)])) = 11
        /\ length (filter is_Sleep
                     (failed_attempts "g" (memberParameters nat refusingClient "m") errs
                        ++ [EvAddMember "g" (memberParameters nat refusingClient "m")
                                        (Some err)])) = 10)
  /\ succeeds_on_attempt nat flakyClient still "g"
       (memberParameters nat flakyClient "m") 4 0 (map refusal [0; 1; 2]) 4
  /\ length (filter is_Sleep
               (failed_attempts "g" (memberParameters nat flakyClient "m")
                  (map refusal [0; 1; 2])
                  ++ [EvAddMember "g" (memberParameters nat flakyClient "m") None]))
     = 4 - 1.
Proof.
  assert (Hrefuse : always_fails nat refusingClient)
    by (intros groupId properties w; simpl; discriminate).
  assert (Hflaky : succeeds_on_attempt nat flakyClient still "g"
                     (memberParameters nat flakyClient "m") 4 0
                     (map refusal [0; 1; 2]) 4)
    by (repeat (eapply succeeds_later; [reflexivity|]);
        apply succeeds_now; reflexivity).
  split; [exact Hrefuse|]. split; [|split; [exact Hflaky|]].
  - exact (proj1 (GroupAddMember_retries nat refusingClient still 3 1
                    "g" "m" (initial 0)) Hrefuse).
  - apply (proj2 (GroupAddMember_retries nat flakyClient still 3 1
                    "g" "m" (initial 0)) 4 (map refusal [0; 1; 2]) 4);
      [lia|exact Hflaky].
Defined.

Lemma GroupAddMember_waits_for_membership_witness :
  succeeds_on_attempt nat flakyClient still "g"
    (memberParameters nat flakyClient "m") 4 0 (map refusal [0; 1; 2]) 4
  /\ (exists s',
        GroupAddMember nat flakyClient still 3 1 "g" "m" (initial 0)
        = Done None s'
        /\ exists current s0 s1,
            WaitForListAdd nat still 3 1 "m"
              (GroupAllMembers nat flakyClient "g") s0 = Done (Ok current) s'
            /\ GroupAllMembers nat flakyClient "g" s1 = Done (Ok current) s'
            /\ In "m" current)
  /\ GroupAddMember nat flakyClient still 3 1 "g" "m" (initial 0)
     = match WaitForListAdd nat still 3 1 "m"
               (GroupAllMembers nat flakyClient "g")
               (added nat flakyClient "g" "m" (map refusal [0; 1; 2]) 4
                      (initial 0)) with
       | Done (Ok _) s' => Done None s'
       | Done (Err err) s' =>
           Done (Some (Errorf "waiting for group membership: %+v"
                              [ArgErr err])) s'
       | Panic s' => Panic s'
       end.
Proof.
  assert (Hflaky : succeeds_on_attempt nat flakyClient still "g"
                     (memberParameters nat flakyClient "m") 4 0
                     (map refusal [0; 1; 2]) 4)
    by (repeat (eapply succeeds_later; [reflexivity|]);
        apply succeeds_now; reflexivity).
  split; [exact Hflaky|]. split.
  - eexists. split; [vm_compute; reflexivity|].
    apply (proj2 (GroupAddMember_waits_for_membership nat flakyClient still 3 1
                    "g" "m" (initial 0))).
    vm_compute. reflexivity.
  - apply (proj1 (GroupAddMember_waits_for_membership nat flakyClient still 3 1
                    "g" "m" (initial 0)) 4 (map refusal [0; 1; 2]) 4);
      [lia|exact Hflaky].
Defined.

Lemma ParseGroupMemberId_roundtrip_witness :
  occurs "/" "member" = false
  /\ valid_identifier "/" "6a1f-group"
  /\ valid_identifier "/" "9c2e-user"
  /\ exists id,
      ParseGroupMemberId "/"
        (GroupMemberId_String "/" (GroupMemberIdFrom "6a1f-group" "9c2e-user"))
      = Ok id
      /\ GroupId id = "6a1f-group"
      /\ MemberId id = "9c2e-user"
      /\ id = GroupMemberIdFrom "6a1f-group" "9c2e-user".
Proof.
  assert (Htag : occurs "/" "member" = false) by reflexivity.
  assert (Hgroup : valid_identifier "/" "6a1f-group")
    by (split; [discriminate|reflexivity]).
  assert (Hmember : valid_identifier "/" "9c2e-user")
    by (split; [discriminate|reflexivity]).
  repeat (split; [assumption|]).
  exact (ParseGroupMemberId_roundtrip "/" "6a1f-group" "9c2e-user"
           Htag Hgroup Hmember).
Defined.

Lemma GroupGetByDisplayName_strict_witness :
  (exists e s',
     GroupGetByDisplayName nat (groupsClient []) "devs" (initial 0)
     = Done (Err e) s')
  /\ (exists e s',
        GroupGetByDisplayName nat
          (groupsClient [group (Some "1") (Some "devs");
                         group (Some "2") (Some "devs");
                         group (Some "3") (Some "devs")])
          "devs" (initial 0)
        = Done (Err e) s')
  /\ (exists e s',
        GroupGetByDisplayName nat (groupsClient [group (Some "1") (Some "Devs")])
                              "devs" (initial 0)
        = Done (Err e) s')
  /\ (exists rest s',
        GroupGetByDisplayName nat
          (groupsClient [group (Some "1") (Some "devs");
                         group (Some "2") (Some "ops")])
          "devs" (initial 0)
        = Done (Ok (group (Some "1") (Some "devs"))) s'
        /\ [group (Some "1") (Some "devs"); group (Some "2") (Some "ops")]
           = group (Some "1") (Some "devs") :: rest
        /\ (length (group (Some "1") (Some "devs") :: rest) = 1
            \/ length (group (Some "1") (Some "devs") :: rest) = 2)).
Proof.
  split; [|split; [|split]].
  - destruct (GroupGetByDisplayName_strict nat (groupsClient []) "devs"
                (initial 0) _ _ eq_refl)
      as (out & Hrun & Hzero & _).
    destruct (Hzero _ eq_refl (or_intror eq_refl)) as [e He].
    exists e. eexists. rewrite Hrun, He. reflexivity.
  - destruct (GroupGetByDisplayName_strict nat
                (groupsClient [group (Some "1") (Some "devs");
                               group (Some "2") (Some "devs");
                               group (Some "3") (Some "devs")])
                "devs" (initial 0) _ _ eq_refl)
      as (out & Hrun & _ & Hmany & _).
    destruct (Hmany _ _ eq_refl eq_refl) as [e He]; [simpl; lia|].
    exists e. eexists. rewrite Hrun, He. reflexivity.
  - destruct (GroupGetByDisplayName_strict nat
                (groupsClient [group (Some "1") (Some "Devs")])
                "devs" (initial 0) _ _ eq_refl)
      as (out & Hrun & _ & _ & Hname & _).
    destruct (Hname _ _ _ eq_refl eq_refl) as [e He]; [discriminate|].
    exists e. eexists. rewrite Hrun, He. reflexivity.
  - destruct (GroupGetByDisplayName_strict nat
                (groupsClient [group (Some "1") (Some "devs");
                               group (Some "2") (Some "ops")])
                "devs" (initial 0) _ _ eq_refl)
      as (out & Hrun & _ & _ & _ & Hfound).
    assert (Hout : out = Ok (group (Some "1") (Some "devs")))
      by (vm_compute in Hrun; inversion Hrun; reflexivity).
    destruct (Hfound _ Hout) as (resp & rest & Hresp & Hvalues & Hlen & _).
    inversion Hresp; subst resp. simpl in Hvalues.
    exists rest. eexists. split; [vm_compute; reflexivity|].
    split; [congruence|exact Hlen].
Defined.

Lemma GroupAddMembers_sequential_witness :
  exists s1 err s2,
    members_added nat onceClient still 3 1 "g" ["a"] (initial 0) s1
    /\ GroupAddMember nat onceClient still 3 1 "g" "b" s1 = Done (Some err) s2
    /\ GroupAddMembers nat onceClient still 3 1 "g" (["a"] ++ "b" :: ["c"])
                       (initial 0)
       = Done (Some (Errorf
           "while adding members to Azure AD Group with ID %q: %+v"
           [ArgStr "g"; ArgErr err])) s2
    /\ GroupAddMembers nat onceClient still 3 1 "g" ["a"] (initial 0)
       = Done None s1
    /\ world s2 = 12.
Proof.
  do 3 eexists.
  split; [eapply added_next; [vm_compute; reflexivity|apply added_none]|].
  split; [vm_compute; reflexivity|].
  split; [|split].
  - eapply (proj2 (GroupAddMembers_sequential nat onceClient still 3 1 "g")).
    + eapply added_next; [vm_compute; reflexivity|apply added_none].
    + vm_compute. reflexivity.
  - apply (proj1 (GroupAddMembers_sequential nat onceClient still 3 1 "g")).
    eapply added_next; [vm_compute; reflexivity|apply added_none].
  - reflexivity.
Defined.

Lemma GroupGetByDisplayName_first_of_two_witness :
  returned (GroupGetByDisplayName nat
              (groupsClient [group (Some "1") (Some "devs");
                             group (Some "2") (Some "devs")])
              "devs" (initial 0))
  = returned (GroupGetByDisplayName nat
                (groupsClient [group (Some "1") (Some "devs");
                               group (Some "3") (Some "ops")])
                "devs" (initial 5))
  /\ (ADGroup.DisplayName (group (Some "1") (Some "devs")) = Some "devs" ->
      returned (GroupGetByDisplayName nat
                  (groupsClient [group (Some "1") (Some "devs");
                                 group (Some "2") (Some "devs")])
                  "devs" (initial 0))
      = Some (Ok (group (Some "1") (Some "devs"))))
  /\ (forall found,
        returned (GroupGetByDisplayName nat
                    (groupsClient [group (Some "1") (Some "devs");
                                   group (Some "2") (Some "devs")])
                    "devs" (initial 0))
        = Some (Ok found) ->
        found = group (Some "1") (Some "devs")
        /\ ADGroup.DisplayName (group (Some "1") (Some "devs")) = Some "devs").
Proof.
  exact (GroupGetByDisplayName_first_of_two nat
           (groupsClient [group (Some "1") (Some "devs");
                          group (Some "2") (Some "devs")])
           (groupsClient [group (Some "1") (Some "devs");
                          group (Some "3") (Some "ops")])
           "devs" (initial 0) (initial 5)
           (group (Some "1") (Some "devs")) (group (Some "2") (Some "devs"))
           (group (Some "3") (Some "ops")) _ _ 0 5
           eq_refl eq_refl eq_refl eq_refl).
Defined.

(** * Absent fields *)

(** C4: the helpers do not always return.  [GroupFindByName] panics on a
    page that holds a group without [DisplayName], and
    [DirectoryObjectListToIDs] panics on a user without [ObjectID]: each
    dereferences the absent field. *)
Theorem absent_field_panics :
  GroupFindByName nat (groupsClient [group (Some "1") None]) "devs" (initial 0)
  = Panic (record nat (EvList (displayNameFilter "devs")) 0 (initial 0))
  /\ DirectoryObjectListToIDs nat (iteratorOf [userObject None]) (initial 0)
     = Panic (initial 0).
Proof. split; reflexivity. Qed.

(** C7: a sequence in which every object is recognized by one projection at
    most, and whose pagination never fails, on which
    [DirectoryObjectListToIDs] returns no list: the group in second place
    has no [ObjectID] and the helper panics there, after the user before it
    has been taken. *)
Theorem DirectoryObjectListToIDs_absent_identifier :
  Forall one_variant_at_most
         [userObject (Some "u"); groupObject None;
          servicePrincipalObject (Some "s"); otherObject]
  /\ DirectoryObjectListToIDs nat
       (iteratorOf [userObject (Some "u"); groupObject None;
                    servicePrincipalObject (Some "s"); otherObject])
       (initial 0)
     = Panic (initial 0).
Proof.
  split; [repeat constructor|reflexivity].
Qed.

(** The same sequence with the identifier of the group in place. *)
Example DirectoryObjectListToIDs_mixed :
  DirectoryObjectListToIDs nat
    (iteratorOf [userObject (Some "u"); groupObject (Some "g");
                 servicePrincipalObject (Some "s"); otherObject])
    (initial 0)
  = Done (Ok ["u"; "g"; "s"]) (initial 0).
Proof. reflexivity. Qed.

(** C8: two pages on which [GroupFindByName] returns nothing at all.  On
    the first no group bears the name asked for, and the helper panics
    instead of returning no group; on the second the group in second place
    bears the name, and the helper panics on the group before it, which has
    no [DisplayName]. *)
Theorem GroupFindByName_absent_name :
  (find (named "devs") [group (Some "1") None] = None
   /\ GroupFindByName nat (groupsClient [group (Some "1") None]) "devs"
                      (initial 0)
      = Panic (record nat (EvList (displayNameFilter "devs")) 0 (initial 0)))
  /\ (find (named "devs") [group (Some "1") None; group (Some "2") (Some "devs")]
      = Some (group (Some "2") (Some "devs"))
      /\ GroupFindByName nat
           (groupsClient [group (Some "1") None; group (Some "2") (Some "devs")])
           "devs" (initial 0)
         = Panic (record nat (EvList (displayNameFilter "devs")) 0 (initial 0))).
Proof. repeat split. Qed.

(** A page whose groups all carry a name, none of them the name asked for
    byte for byte. *)
Example GroupFindByName_case_differs :
  GroupFindByName nat
    (groupsClient [group (Some "1") (Some "Devs"); group (Some "2") (Some "DEVS")])
    "devs" (initial 0)
  = Done (Ok None) (record nat (EvList (displayNameFilter "devs")) 0 (initial 0)).
Proof. reflexivity. Qed.

(** * Further runs on concrete directories *)

Lemma GroupAddMember_errors_witness :
  (exists e s',
     GroupAddMember nat refusingClient still 3 1 "g" "m" (initial 0)
     = Done (Some e) s'
     /\ ((exists errs err,
            e = Errorf "adding group member %q to Azure AD Group with ID %q: %+v"
                       [ArgStr "m"; ArgStr "g"; ArgErr err]
            /\ length errs = 10
            /\ trace s'
               = (trace (initial 0)
                    ++ failed_attempts "g" (memberParameters nat refusingClient "m") errs
                    ++ [EvAddMember "g" (memberParameters nat refusingClient "m")
                                    (Some err)])%list)
         \/ (exists err s0,
               e = Errorf "waiting for group membership: %+v" [ArgErr err]
               /\ WaitForListAdd nat still 3 1 "m"
                    (GroupAllMembers nat refusingClient "g") s0
                  = Done (Err err) s')))
  /\ (exists e s',
        GroupAddMember nat unreachableClient still 3 1 "g" "m" (initial 0)
        = Done (Some e) s'
        /\ ((exists errs err,
               e = Errorf "adding group member %q to Azure AD Group with ID %q: %+v"
                          [ArgStr "m"; ArgStr "g"; ArgErr err]
               /\ length errs = 10
               /\ trace s'
                  = (trace (initial 0)
                       ++ failed_attempts "g"
                            (memberParameters nat unreachableClient "m") errs
                       ++ [EvAddMember "g"
                             (memberParameters nat unreachableClient "m")
                             (Some err)])%list)
            \/ (exists err s0,
                  e = Errorf "waiting for group membership: %+v" [ArgErr err]
                  /\ WaitForListAdd nat still 3 1 "m"
                       (GroupAllMembers nat unreachableClient "g") s0
                     = Done (Err err) s'))).
Proof.
  split.
  - do 2 eexists. split; [vm_compute; reflexivity|].
    apply (GroupAddMember_errors nat refusingClient still 3 1 "g" "m" (initial 0)).
    vm_compute. reflexivity.
  - do 2 eexists. split; [vm_compute; reflexivity|].
    apply (GroupAddMember_errors nat unreachableClient still 3 1 "g" "m"
             (initial 0)).
    vm_compute. reflexivity.
Defined.

Lemma GroupAddMembers_failure_witness :
  exists e s',
    GroupAddMembers nat onceClient still 3 1 "g" ["a"; "b"; "c"] (initial 0)
    = Done (Some e) s'
    /\ exists before member later s1 err,
        ["a"; "b"; "c"] = (before ++ member :: later)%list
        /\ members_added nat onceClient still 3 1 "g" before (initial 0) s1
        /\ GroupAddMember nat onceClient still 3 1 "g" member s1
           = Done (Some err) s'
        /\ e = Errorf "while adding members to Azure AD Group with ID %q: %+v"
                      [ArgStr "g"; ArgErr err].
Proof.
  do 2 eexists. split; [vm_compute; reflexivity|].
  apply (GroupAddMembers_failure nat onceClient still 3 1 "g" ["a"; "b"; "c"]
           (initial 0)).
  vm_compute. reflexivity.
Defined.

Lemma GroupAddOwners_sequential_witness :
  exists s1 err s2,
    owners_added nat (ownersClient (Nat.eqb 1)) "g" ["a"] (initial 0) s1
    /\ GroupAddOwner nat (ownersClient (Nat.eqb 1)) "g" "b" s1
       = Done (Some err) s2
    /\ GroupAddOwners nat (ownersClient (Nat.eqb 1)) "g" (["a"] ++ "b" :: ["c"])
                      (initial 0)
       = Done (Some (Errorf
           "while adding owners to Azure AD Group with ID %q: %+v"
           [ArgStr "g"; ArgErr err])) s2
    /\ world s2 = 2.
Proof.
  do 3 eexists.
  split; [eapply owners_next; [vm_compute; reflexivity|apply owners_none]|].
  split; [vm_compute; reflexivity|].
  split.
  - eapply (proj2 (GroupAddOwners_sequential nat (ownersClient (Nat.eqb 1)) "g")).
    + eapply owners_next; [vm_compute; reflexivity|apply owners_none].
    + vm_compute. reflexivity.
  - reflexivity.
Defined.

Lemma GroupFindByName_found_witness :
  GroupsClient.List
    (groupsClient [group (Some "1") (Some "ops"); group (Some "2") (Some "devs");
                   group (Some "3") None])
    (displayNameFilter "devs") (world (initial 0))
  = (Ok {| Values := [group (Some "1") (Some "ops");
                      group (Some "2") (Some "devs");
                      group (Some "3") None] |}, 0)
  /\ returned (GroupFindByName nat
                 (groupsClient [group (Some "1") (Some "ops");
                                group (Some "2") (Some "devs");
                                group (Some "3") None])
                 "devs" (initial 0))
     = Some (Ok (Some (group (Some "2") (Some "devs")))).
Proof.
  split; [reflexivity|].
  apply (GroupFindByName_found nat
           (groupsClient [group (Some "1") (Some "ops");
                          group (Some "2") (Some "devs");
                          group (Some "3") None])
           "devs" (initial 0) _ 0 (group (Some "2") (Some "devs")) eq_refl).
  exists [group (Some "1") (Some "ops")], [group (Some "3") None].
  split; [reflexivity|]. split; [|reflexivity].
  constructor; [|constructor].
  exists "ops". split; [reflexivity|discriminate].
Defined.

Lemma GroupFindByName_none_or_panic_witness :
  returned (GroupFindByName nat (groupsClient [group (Some "1") (Some "Devs")])
                            "devs" (initial 0))
  = Some (Ok None)
  /\ returned (GroupFindByName nat
                 (groupsClient [group (Some "1") (Some "Devs");
                                group (Some "2") None;
                                group (Some "3") (Some "devs")])
                 "devs" (initial 0))
     = None.
Proof.
  split.
  - apply (proj1 (GroupFindByName_none_or_panic nat
                    (groupsClient [group (Some "1") (Some "Devs")])
                    "devs" (initial 0) _ 0 eq_refl)).
    constructor; [|constructor].
    exists "Devs". split; [reflexivity|discriminate].
  - apply (proj2 (GroupFindByName_none_or_panic nat
                    (groupsClient [group (Some "1") (Some "Devs");
                                   group (Some "2") None;
                                   group (Some "3") (Some "devs")])
                    "devs" (initial 0) _ 0 eq_refl)).
    exists [group (Some "1") (Some "Devs")], (group (Some "2") None),
      [group (Some "3") (Some "devs")].
    split; [reflexivity|]. split; [|reflexivity].
    constructor; [|constructor].
    exists "Devs". split; [reflexivity|discriminate].
Defined.

Lemma lookups_agree_witness :
  returned (GroupGetByDisplayName nat
              (groupsClient [group (Some "1") (Some "devs");
                             group (Some "2") None])
              "devs" (initial 0))
  = Some (Ok (group (Some "1") (Some "devs")))
  /\ returned (GroupFindByName nat
                 (groupsClient [group (Some "1") (Some "devs");
                                group (Some "2") None])
                 "devs" (initial 7))
     = Some (Ok (Some (group (Some "1") (Some "devs")))).
Proof.
  split; [reflexivity|].
  exact (lookups_agree nat
           (groupsClient [group (Some "1") (Some "devs"); group (Some "2") None])
           "devs" (initial 0) (initial 7) _ _ 0 7
           (group (Some "1") (Some "devs")) eq_refl eq_refl eq_refl eq_refl).
Defined.

Lemma GroupCheckNameAvailability_outcomes_witness :
  GroupCheckNameAvailability nat
    (groupsClient [group (Some "1") (Some "ops")])
    (fun format args => Some (Errorf format args)) "devs" (initial 0)
  = Done None (record nat (EvList (displayNameFilter "devs")) 0 (initial 0))
  /\ GroupCheckNameAvailability nat
       (groupsClient [group (Some "1") (Some "ops");
                      group (Some "2") (Some "devs")])
       (fun format args => Some (Errorf format args)) "devs" (initial 0)
     = Done (Some (Errorf
         "existing Azure Active Directory Group with name %q (ObjID: %q) was found and `prevent_duplicate_names` was specified"
         [ArgStr "devs"; ArgStr "2"]))
         (record nat (EvList (displayNameFilter "devs")) 0 (initial 0))
  /\ GroupCheckNameAvailability nat unreachableClient
       (fun format args => Some (Errorf format args)) "devs" (initial 0)
     = Done (Some (Errorf "unable to list Groups with filter %q: %+v"
                     [ArgStr (displayNameFilter "devs");
                      ArgErr (RemoteError "unreachable")]))
            (record nat (EvList (displayNameFilter "devs")) 0 (initial 0)).
Proof.
  split; [|split].
  - apply (proj1 (proj2 (GroupCheckNameAvailability_outcomes nat
                           (groupsClient [group (Some "1") (Some "ops")])
                           (fun format args => Some (Errorf format args))
                           "devs" (initial 0)) _ 0 eq_refl)).
    constructor; [|constructor].
    exists "ops". split; [reflexivity|discriminate].
  - apply (proj2 (proj2 (GroupCheckNameAvailability_outcomes nat
                           (groupsClient [group (Some "1") (Some "ops");
                                          group (Some "2") (Some "devs")])
                           (fun format args => Some (Errorf format args))
                           "devs" (initial 0)) _ 0 eq_refl)
             [group (Some "1") (Some "ops")] (group (Some "2") (Some "devs")) []).
    + reflexivity.
    + constructor; [|constructor].
      exists "ops". split; [reflexivity|discriminate].
    + reflexivity.
  - apply (proj1 (GroupCheckNameAvailability_outcomes nat unreachableClient
                    (fun format args => Some (Errorf format args))
                    "devs" (initial 0))).
    reflexivity.
Defined.
